(** * Tenants: per-user field encryption and the authentication gate

    A shallow embedding of [lib/encryption.ts], [lib/auth-middleware.ts],
    [lib/firebase-admin.ts], [lib/database.ts] and the route
    [app/api/properties/route.ts], together with the Node.js primitives they
    call ([crypto.hkdfSync], AES-256-GCM through [createCipheriv] and
    [createDecipheriv], [Buffer] base64 and UTF-8 conversions), written out
    from their standards (FIPS 180-4, RFC 2104, RFC 5869, FIPS 197,
    NIST SP 800-38D, RFC 4648).

    Conventions.
    - A [Buffer] is a [list byte].
    - A JavaScript string is a Rocq [string] holding the UTF-8 encoding of
      the text (so [Buffer.from(s, 'utf8')] is the list of its bytes and
      [buf.toString('utf8')] is the WHATWG decoder with U+FFFD
      replacement, re-encoded).
    - Machine words are [Z] with the wrap-around written out.
    - A function that can throw returns a [result]; the thrown JavaScript
      object is an [exn]. The message of an error thrown by the platform
      itself ([JSON.parse], [new Response]) stands for the one Node.js
      gives. *)

From Stdlib Require Import ZArith String Ascii Bool Lia.
From Stdlib Require Import Init.Byte Strings.Byte List.
Import ListNotations.

Local Open Scope Z_scope.

(* ================================================================== *)
(** * Part I. Definitions *)
(* ================================================================== *)

(** ** Bytes and buffers *)

Definition byte_to_Z (b : byte) : Z := Z.of_N (Byte.to_N b).

Definition byte_of_Z (z : Z) : byte :=
  match Byte.of_N (Z.to_N (z mod 256)) with
  | Some b => b
  | None => x00
  end.

Definition byte_xor (a b : byte) : byte :=
  byte_of_Z (Z.lxor (byte_to_Z a) (byte_to_Z b)).

(** [n] bytes of [z], most significant first. *)
Definition be_bytes (n : nat) (z : Z) : list byte :=
  map (fun i => byte_of_Z (Z.shiftr z (8 * Z.of_nat (n - 1 - i)))) (seq 0 n).

(** The big-endian integer a buffer denotes. *)
Definition be_Z (l : list byte) : Z :=
  fold_left (fun acc b => acc * 256 + byte_to_Z b) l 0.

(** Pointwise xor, as long as the shorter argument. *)
Fixpoint xor_bytes (a b : list byte) : list byte :=
  match a, b with
  | x :: a', y :: b' => byte_xor x y :: xor_bytes a' b'
  | _, _ => []
  end.

Definition Buffer_eqb (a b : list byte) : bool :=
  if list_eq_dec Byte.byte_eq_dec a b then true else false.

(** ** SHA-256 (FIPS 180-4) *)

Module SHA256.

Definition mask32 : Z := 0xFFFFFFFF.
Definition add32 (x y : Z) : Z := Z.land (x + y) mask32.
Definition rotr (n x : Z) : Z :=
  Z.lor (Z.shiftr x n) (Z.land (Z.shiftl x (32 - n)) mask32).
Definition not32 (x : Z) : Z := Z.lxor x mask32.

Definition Ch (x y z : Z) : Z := Z.lxor (Z.land x y) (Z.land (not32 x) z).
Definition Maj (x y z : Z) : Z :=
  Z.lxor (Z.lxor (Z.land x y) (Z.land x z)) (Z.land y z).
Definition bsig0 (x : Z) : Z := Z.lxor (Z.lxor (rotr 2 x) (rotr 13 x)) (rotr 22 x).
Definition bsig1 (x : Z) : Z := Z.lxor (Z.lxor (rotr 6 x) (rotr 11 x)) (rotr 25 x).
Definition ssig0 (x : Z) : Z := Z.lxor (Z.lxor (rotr 7 x) (rotr 18 x)) (Z.shiftr x 3).
Definition ssig1 (x : Z) : Z := Z.lxor (Z.lxor (rotr 17 x) (rotr 19 x)) (Z.shiftr x 10).

(** The primes below 312: the first sixty-four. *)
Definition is_prime (n : nat) : bool :=
  (2 <=? n)%nat
  && forallb (fun d => negb (Nat.modulo n d =? 0)%nat) (seq 2 (n - 2)).

Definition primes : list Z :=
  Eval vm_compute in map Z.of_nat (filter is_prime (seq 0 312)).

(** The largest [r] with [r ^ k <= x], found bit by bit below [2 ^ n]. *)
Fixpoint root_bits (k : Z) (x : Z) (n : nat) (r : Z) : Z :=
  match n with
  | O => r
  | S n' =>
      let r' := r + 2 ^ Z.of_nat n' in
      root_bits k x n' (if r' ^ k <=? x then r' else r)
  end.

(** The first 32 bits of the fractional part of the [k]-th root of [p]. *)
Definition root_fraction (k p : Z) : Z :=
  Z.land (root_bits k (p * 2 ^ (32 * k)) 40 0) mask32.

(** Section 4.2.2: from the cube roots of the first sixty-four primes. *)
Definition round_constants : list Z :=
  Eval vm_compute in map (root_fraction 3) primes.

(** The eight working variables a..h, also the chaining value. *)
Record state : Type := mkState {
  va : Z; vb : Z; vc : Z; vd : Z; ve : Z; vf : Z; vg : Z; vh : Z }.

(** Section 5.3.3: from the square roots of the first eight primes. *)
Definition initial_words : list Z :=
  Eval vm_compute in map (root_fraction 2) (firstn 8 primes).

Definition initial : state :=
  mkState (nth 0 initial_words 0) (nth 1 initial_words 0)
          (nth 2 initial_words 0) (nth 3 initial_words 0)
          (nth 4 initial_words 0) (nth 5 initial_words 0)
          (nth 6 initial_words 0) (nth 7 initial_words 0).

(** Message padding: 0x80, zero bytes up to 56 mod 64, then the bit length
    on 8 bytes. *)
Definition pad (msg : list byte) : list byte :=
  let l := Z.of_nat (length msg) in
  msg ++ x80 :: repeat x00 (Z.to_nat ((55 - l) mod 64)) ++ be_bytes 8 (8 * l).

Fixpoint words_of_bytes (l : list byte) : list Z :=
  match l with
  | a :: b :: c :: d :: r => be_Z [a; b; c; d] :: words_of_bytes r
  | _ => []
  end.

(** Message schedule; [recent] holds the words computed so far, the latest
    first, so W(t-2), W(t-7), W(t-15), W(t-16) sit at 1, 6, 14, 15. *)
Fixpoint schedule (n : nat) (recent : list Z) : list Z :=
  match n with
  | O => rev recent
  | S n' =>
      let w := add32 (add32 (ssig1 (nth 1 recent 0)) (nth 6 recent 0))
                     (add32 (ssig0 (nth 14 recent 0)) (nth 15 recent 0)) in
      schedule n' (w :: recent)
  end.

Definition round (s : state) (kw : Z * Z) : state :=
  let (k, w) := kw in
  let t1 := add32 (add32 (add32 (add32 (vh s) (bsig1 (ve s)))
                                (Ch (ve s) (vf s) (vg s))) k) w in
  let t2 := add32 (bsig0 (va s)) (Maj (va s) (vb s) (vc s)) in
  mkState (add32 t1 t2) (va s) (vb s) (vc s)
          (add32 (vd s) t1) (ve s) (vf s) (vg s).

Definition compress (h : state) (block : list Z) : state :=
  let w := schedule 48 (rev block) in
  let s := fold_left round (combine round_constants w) h in
  mkState (add32 (va h) (va s)) (add32 (vb h) (vb s))
          (add32 (vc h) (vc s)) (add32 (vd h) (vd s))
          (add32 (ve h) (ve s)) (add32 (vf h) (vf s))
          (add32 (vg h) (vg s)) (add32 (vh h) (vh s)).

Fixpoint hash_blocks (fuel : nat) (h : state) (ws : list Z) : state :=
  match fuel, ws with
  | S fuel', _ :: _ => hash_blocks fuel' (compress h (firstn 16 ws)) (skipn 16 ws)
  | _, _ => h
  end.

Definition digest_bytes (h : state) : list byte :=
  be_bytes 4 (va h) ++ be_bytes 4 (vb h) ++ be_bytes 4 (vc h) ++
  be_bytes 4 (vd h) ++ be_bytes 4 (ve h) ++ be_bytes 4 (vf h) ++
  be_bytes 4 (vg h) ++ be_bytes 4 (vh h).

Definition sha256 (msg : list byte) : list byte :=
  let ws := words_of_bytes (pad msg) in
  digest_bytes (hash_blocks (length ws) initial ws).

Definition block_size : nat := 64.
Definition digest_size : nat := 32.

End SHA256.

(** ** HMAC (RFC 2104) and HKDF (RFC 5869) over an arbitrary hash *)

Section KeyedHash.

Variable hash : list byte -> list byte.
Variable block_size : nat.
Variable digest_size : nat.

(** The key an HMAC really uses: hashed when longer than a block, then
    filled with zero bytes up to the block size. *)
Definition hmac_key_block (key : list byte) : list byte :=
  let k := if (block_size <? length key)%nat then hash key else key in
  k ++ repeat x00 (block_size - length k).

Definition hmac (key msg : list byte) : list byte :=
  let k0 := hmac_key_block key in
  let ipad := map (fun b => byte_xor b x36) k0 in
  let opad := map (fun b => byte_xor b x5c) k0 in
  hash (opad ++ hash (ipad ++ msg)).

Definition hkdf_extract (salt ikm : list byte) : list byte :=
  hmac salt ikm.

(** T(1) | T(2) | ... | T(n), with T(i) = HMAC(prk, T(i-1) | info | i). *)
Fixpoint hkdf_expand_blocks (prk info prev : list byte) (i : Z) (n : nat)
  : list byte :=
  match n with
  | O => []
  | S n' =>
      let t := hmac prk (prev ++ info ++ [byte_of_Z i]) in
      t ++ hkdf_expand_blocks prk info t (i + 1) n'
  end.

Definition hkdf_expand (prk info : list byte) (len : nat) : list byte :=
  let n := Nat.div (len + digest_size - 1) digest_size in
  firstn len (hkdf_expand_blocks prk info [] 1 n).

Definition hkdf (ikm salt info : list byte) (len : nat) : list byte :=
  hkdf_expand (hkdf_extract salt ikm) info len.

End KeyedHash.

(** ** AES-256 (FIPS 197), forward cipher only: GCM needs no inverse *)

Module AES.

Definition xtime (b : Z) : Z :=
  Z.lxor (Z.land (2 * b) 0xFF) (if Z.testbit b 7 then 0x1B else 0).

(** Multiplication in GF(2^8) modulo x^8 + x^4 + x^3 + x + 1. *)
Fixpoint gf8_mul_aux (n : nat) (a b : Z) : Z :=
  match n with
  | O => 0
  | S n' =>
      Z.lxor (if Z.odd b then a else 0)
             (gf8_mul_aux n' (xtime a) (Z.shiftr b 1))
  end.
Definition gf8_mul (a b : Z) : Z := gf8_mul_aux 8 a b.

Fixpoint gf8_pow (a : Z) (n : nat) : Z :=
  match n with
  | O => 1
  | S n' => gf8_mul a (gf8_pow a n')
  end.

Definition rotl8 (x : Z) (s : Z) : Z :=
  Z.land (Z.lor (Z.shiftl x s) (Z.shiftr x (8 - s))) 0xFF.

(** Section 5.1.1: the inverse in GF(2^8) (0 for 0, i.e. b^254) followed
    by the affine transformation. *)
Definition sbox_of (b : Z) : Z :=
  let i := gf8_pow b 254 in
  Z.lxor (Z.lxor (Z.lxor (Z.lxor i (rotl8 i 1)) (rotl8 i 2))
                 (Z.lxor (rotl8 i 3) (rotl8 i 4))) 0x63.

Definition sbox : list Z :=
  Eval vm_compute in map (fun n => sbox_of (Z.of_nat n)) (seq 0 256).

Definition sub_byte (b : Z) : Z := nth (Z.to_nat b) sbox 0.

(** The state is kept in input order: byte [4*c + r] is row [r],
    column [c]. *)
Definition at_ (s : list Z) (i : nat) : Z := nth i s 0.

Definition sub_bytes (s : list Z) : list Z := map sub_byte s.

Definition shift_rows (s : list Z) : list Z :=
  map (fun i => let r := Nat.modulo i 4 in
                let c := Nat.div i 4 in
                at_ s (4 * Nat.modulo (c + r) 4 + r)%nat)
      (seq 0 16).

Definition mix_column (a0 a1 a2 a3 : Z) : list Z :=
  [ Z.lxor (Z.lxor (xtime a0) (Z.lxor (xtime a1) a1)) (Z.lxor a2 a3);
    Z.lxor (Z.lxor a0 (xtime a1)) (Z.lxor (Z.lxor (xtime a2) a2) a3);
    Z.lxor (Z.lxor a0 a1) (Z.lxor (xtime a2) (Z.lxor (xtime a3) a3));
    Z.lxor (Z.lxor (Z.lxor (xtime a0) a0) a1) (Z.lxor a2 (xtime a3)) ].

Definition mix_columns (s : list Z) : list Z :=
  flat_map (fun c => mix_column (at_ s (4 * c)) (at_ s (4 * c + 1))
                                (at_ s (4 * c + 2)) (at_ s (4 * c + 3)))
           (seq 0 4).

Fixpoint xor_state (a b : list Z) : list Z :=
  match a, b with
  | x :: a', y :: b' => Z.lxor x y :: xor_state a' b'
  | _, _ => []
  end.

(** Key expansion for Nk = 8: 60 words of 4 bytes. [w] is the schedule so
    far, in order; [i] is the index of the next word. *)
Definition word := list Z.

Definition rot_word (w : word) : word :=
  match w with
  | a :: r => r ++ [a]
  | [] => []
  end.

Definition rcon (j : nat) : word := [Nat.iter (j - 1) xtime 1; 0; 0; 0].

Fixpoint expand_key (n : nat) (i : nat) (w : list word) : list word :=
  match n with
  | O => w
  | S n' =>
      let prev := nth (i - 1) w [] in
      let temp :=
        if (Nat.modulo i 8 =? 0)%nat
        then xor_state (map sub_byte (rot_word prev)) (rcon (Nat.div i 8))
        else if (Nat.modulo i 8 =? 4)%nat then map sub_byte prev
        else prev in
      expand_key n' (S i) (w ++ [xor_state (nth (i - 8) w []) temp])
  end.

Fixpoint key_words (k : list Z) : list word :=
  match k with
  | a :: b :: c :: d :: r => [a; b; c; d] :: key_words r
  | _ => []
  end.

Definition round_key (w : list word) (r : nat) : list Z :=
  concat (firstn 4 (skipn (4 * r) w)).

Fixpoint rounds (n : nat) (r : nat) (w : list word) (s : list Z) : list Z :=
  match n with
  | O => s
  | S n' =>
      rounds n' (S r) w
        (xor_state (mix_columns (shift_rows (sub_bytes s))) (round_key w r))
  end.

Definition cipher (w : list word) (input : list Z) : list Z :=
  let s0 := xor_state input (round_key w 0) in
  let s13 := rounds 13 1 w s0 in
  xor_state (shift_rows (sub_bytes s13)) (round_key w 14).

(** One block under a 32-byte key; the result has 16 bytes by
    construction. *)
Definition encrypt_block (key block : list byte) : list byte :=
  let w := expand_key 52 8 (key_words (map byte_to_Z key)) in
  let out := cipher w (map byte_to_Z block) in
  map (fun i => byte_of_Z (at_ out i)) (seq 0 16).

End AES.

(** ** Galois/Counter Mode (NIST SP 800-38D) over a 128-bit block cipher *)

Module GCM.

Definition R : Z := Z.shiftl 0xE1 120.

(** Multiplication in GF(2^128); bit 0 of a block is its leftmost bit,
    i.e. bit 127 of the big-endian integer. *)
Definition gf_step (x : Z) (zv : Z * Z) (i : nat) : Z * Z :=
  let (z, v) := zv in
  (if Z.testbit x (127 - Z.of_nat i) then Z.lxor z v else z,
   if Z.testbit v 0 then Z.lxor (Z.shiftr v 1) R else Z.shiftr v 1).

Definition gf_mul (x y : Z) : Z :=
  fst (fold_left (gf_step x) (seq 0 128) (0, y)).

(** GHASH over a buffer whose length is a multiple of 16. *)
Fixpoint ghash_blocks (fuel : nat) (h y : Z) (data : list byte) : Z :=
  match fuel, data with
  | S fuel', _ :: _ =>
      ghash_blocks fuel' h (gf_mul (Z.lxor y (be_Z (firstn 16 data))) h)
                   (skipn 16 data)
  | _, _ => y
  end.

Definition ghash (h : Z) (data : list byte) : Z :=
  ghash_blocks (length data) h 0 data.

Definition pad16 (l : list byte) : list byte :=
  l ++ repeat x00 (Nat.modulo (16 - Nat.modulo (length l) 16) 16).

Definition bit_length (l : list byte) : list byte :=
  be_bytes 8 (8 * Z.of_nat (length l)).

Section Mode.

(** The keyed forward cipher. *)
Variable E : list byte -> list byte.

Definition hash_subkey : Z := be_Z (E (repeat x00 16)).

(** The pre-counter block J0. *)
Definition j0 (iv : list byte) : Z :=
  if (length iv =? 12)%nat
  then be_Z (iv ++ [x00; x00; x00; x01])
  else ghash hash_subkey (pad16 iv ++ repeat x00 8 ++ bit_length iv).

(** [inc32] applied [k] times: the low 32 bits count modulo 2^32. *)
Definition counter_block (cb : Z) (k : Z) : list byte :=
  be_bytes 16 (Z.lor (Z.shiftl (Z.shiftr cb 32) 32)
                     ((Z.land cb 0xFFFFFFFF + k) mod 2 ^ 32)).

(** Byte [j] of the key stream of GCTR started at inc32(J0). *)
Definition keystream_byte (iv : list byte) (j : nat) : byte :=
  nth (Nat.modulo j 16)
      (E (counter_block (j0 iv) (1 + Z.of_nat (Nat.div j 16)))) x00.

(** GCTR on the bytes that start at offset [off] of the stream. *)
Fixpoint gctr (iv : list byte) (off : nat) (data : list byte) : list byte :=
  match data with
  | [] => []
  | b :: r => byte_xor b (keystream_byte iv off) :: gctr iv (S off) r
  end.

(** The full 128-bit tag for additional data [aad] and ciphertext [c]. *)
Definition tag (iv aad c : list byte) : list byte :=
  let s := ghash hash_subkey
             (pad16 aad ++ pad16 c ++ bit_length aad ++ bit_length c) in
  xor_bytes (be_bytes 16 s) (E (counter_block (j0 iv) 0)).

End Mode.

End GCM.

(** ** Base64 as [Buffer] does it (RFC 4648) *)

Module Base64.

Definition alphabet : string :=
  "ABCDEFGHIJKLMNOPQRSTUVWXYZabcdefghijklmnopqrstuvwxyz0123456789+/".

Definition digit (n : Z) : ascii :=
  match String.get (Z.to_nat n) alphabet with
  | Some c => c
  | None => "="%char
  end.

(** [buf.toString('base64')]: the standard alphabet, with padding. *)
Fixpoint encode (l : list byte) : string :=
  match l with
  | [] => EmptyString
  | [a] =>
      let x := byte_to_Z a in
      String (digit (x / 4)) (String (digit (x mod 4 * 16)) "==")
  | [a; b] =>
      let x := byte_to_Z a in
      let y := byte_to_Z b in
      String (digit (x / 4))
        (String (digit (x mod 4 * 16 + y / 16))
           (String (digit (y mod 16 * 4)) "="))
  | a :: b :: c :: r =>
      let x := byte_to_Z a in
      let y := byte_to_Z b in
      let z := byte_to_Z c in
      String (digit (x / 4))
        (String (digit (x mod 4 * 16 + y / 16))
           (String (digit (y mod 16 * 4 + z / 64))
              (String (digit (z mod 64)) (encode r))))
  end.

(** The value of a legal character. Node's decoder takes the URL-safe
    characters '-' and '_' as well. *)
Definition unbase64 (c : ascii) : option Z :=
  let n := Z.of_nat (nat_of_ascii c) in
  if (65 <=? n) && (n <=? 90) then Some (n - 65)
  else if (97 <=? n) && (n <=? 122) then Some (n - 71)
  else if (48 <=? n) && (n <=? 57) then Some (n + 4)
  else if (n =? 43) || (n =? 45) then Some 62
  else if (n =? 47) || (n =? 95) then Some 63
  else None.

(** Node's decoder never throws: characters outside the alphabet are
    skipped and the first '=' ends the input. *)
Fixpoint sextets (s : string) : list Z :=
  match s with
  | EmptyString => []
  | String c r =>
      if Ascii.eqb c "="%char then []
      else match unbase64 c with
           | Some v => v :: sextets r
           | None => sextets r
           end
  end.

Fixpoint bytes_of_sextets (l : list Z) : list byte :=
  match l with
  | a :: b :: c :: d :: r =>
      byte_of_Z (a * 4 + b / 16) :: byte_of_Z (b mod 16 * 16 + c / 4)
        :: byte_of_Z (c mod 4 * 64 + d) :: bytes_of_sextets r
  | [a; b; c] =>
      [byte_of_Z (a * 4 + b / 16); byte_of_Z (b mod 16 * 16 + c / 4)]
  | [a; b] => [byte_of_Z (a * 4 + b / 16)]
  | _ => []
  end.

(** The decoder reads a JavaScript string one UTF-16 code unit at a time
    and keeps the low eight bits of each unit. [units s acc n] is the
    string of these, for well-formed text [s] held in UTF-8: [n]
    continuation bytes are still to come for the code point gathered in
    [acc]. A code point above U+FFFF is two units, a surrogate pair. *)
Definition unit_char (u : Z) : ascii := ascii_of_nat (Z.to_nat (u mod 256)).

Definition code_units (cp : Z) : list Z :=
  if cp <? 0x10000 then [cp]
  else [0xD800 + (cp - 0x10000) / 1024; 0xDC00 + (cp - 0x10000) mod 1024].

Fixpoint units (s : string) (acc : Z) (n : nat) : string :=
  match s with
  | EmptyString => EmptyString
  | String c r =>
      let x := Z.of_nat (nat_of_ascii c) in
      match n with
      | O =>
          if x <? 0x80 then String c (units r 0 0)
          else if x <? 0xE0 then units r (x mod 32) 1
          else if x <? 0xF0 then units r (x mod 16) 2
          else units r (x mod 8) 3
      | S O =>
          string_of_list_ascii (map unit_char (code_units (acc * 64 + x mod 64)))
          ++ units r 0 0
      | S n' => units r (acc * 64 + x mod 64) n'
      end
  end.

(** [Buffer.from(s, 'base64')]. *)
Definition decode (s : string) : list byte :=
  bytes_of_sextets (sextets (units s 0 0)).

End Base64.

(** ** UTF-8 as [Buffer] does it *)

Module UTF8.

(** [Buffer.from(s, 'utf8')]: strings are kept UTF-8 encoded. *)
Definition encode (s : string) : list byte := list_byte_of_string s.

Definition replacement : list byte := [xef; xbf; xbd].

(** What a byte starts: one ASCII character, a sequence of [n] more bytes
    whose next byte lies in [lo, hi], or nothing. *)
Inductive lead : Type :=
| Single
| Multi (n : nat) (lo hi : Z)
| Invalid.

Definition classify (b : byte) : lead :=
  let x := byte_to_Z b in
  if x <=? 0x7F then Single
  else if (0xC2 <=? x) && (x <=? 0xDF) then Multi 1 0x80 0xBF
  else if x =? 0xE0 then Multi 2 0xA0 0xBF
  else if x =? 0xED then Multi 2 0x80 0x9F
  else if (0xE1 <=? x) && (x <=? 0xEF) then Multi 2 0x80 0xBF
  else if x =? 0xF0 then Multi 3 0x90 0xBF
  else if x =? 0xF4 then Multi 3 0x80 0x8F
  else if (0xF1 <=? x) && (x <=? 0xF3) then Multi 3 0x80 0xBF
  else Invalid.

(** The decoder of the Encoding Standard, its output encoded again:
    a well-formed sequence is copied, every maximal ill-formed part
    becomes U+FFFD. [pending] are the bytes of the sequence read so far,
    [needed] the bytes it still lacks. *)
Fixpoint scrub (l : list byte) (pending : list byte) (needed : nat)
         (lo hi : Z) : list byte :=
  match l with
  | [] => match needed with O => [] | S _ => replacement end
  | b :: r =>
      let start (prefix : list byte) :=
        match classify b with
        | Single => prefix ++ b :: scrub r [] 0 0x80 0xBF
        | Multi n lo' hi' => prefix ++ scrub r [b] n lo' hi'
        | Invalid => prefix ++ replacement ++ scrub r [] 0 0x80 0xBF
        end in
      match needed with
      | O => start []
      | S n' =>
          if (lo <=? byte_to_Z b) && (byte_to_Z b <=? hi)
          then match n' with
               | O => pending ++ b :: scrub r [] 0 0x80 0xBF
               | S _ => scrub r (pending ++ [b]) n' 0x80 0xBF
               end
          else start replacement
      end
  end.

(** [buf.toString('utf8')]. *)
Definition decode (l : list byte) : string :=
  string_of_list_byte (scrub l [] 0 0x80 0xBF).

(** Well-formed text: decoding its bytes gives it back. Every string a
    JavaScript program can hold without lone surrogates is well-formed. *)
Definition well_formed (s : string) : Prop := decode (encode s) = s.

(** [s.length]: UTF-16 code units, one per sequence and two for a
    four-byte one. *)
Definition js_length (s : string) : Z :=
  fold_left (fun n b => let x := byte_to_Z b in
                        if (0x80 <=? x) && (x <=? 0xBF) then n
                        else if 0xF0 <=? x then n + 2 else n + 1)
            (encode s) 0.

End UTF8.

(** ** JSON values, [JSON.stringify] and [JSON.parse] *)

Module Json.

Local Open Scope string_scope.
Local Open Scope Z_scope.

(** A number is kept as its decimal literal: the double it denotes is not
    modelled. An object is the list of its members in insertion order. *)
#[local] Unset Elimination Schemes.
Inductive json : Type :=
| JNull
| JBool (b : bool)
| JNumber (literal : string)
| JString (s : string)
| JArray (items : list json)
| JObject (members : list (string * json)).
#[local] Set Elimination Schemes.

Definition hex_digit (n : Z) : ascii :=
  match String.get (Z.to_nat n) "0123456789abcdef" with
  | Some c => c
  | None => "0"%char
  end.

Definition code (c : ascii) : Z := Z.of_nat (nat_of_ascii c).

(** The quotation mark. *)
Definition dquote : ascii := "034"%char.

(** QuoteJSONString: the two-character escapes, \u00XX for the other
    control characters, everything else as it is. *)
Fixpoint escape (s : string) : string :=
  match s with
  | EmptyString => EmptyString
  | String c r =>
      let n := code c in
      let e :=
        if n =? 34 then String "\" (String dquote "")
        else if n =? 92 then "\\"
        else if n =? 8 then "\b"
        else if n =? 12 then "\f"
        else if n =? 10 then "\n"
        else if n =? 13 then "\r"
        else if n =? 9 then "\t"
        else if n <? 32
        then String "\" (String "u" (String "0" (String "0"
               (String (hex_digit (n / 16)) (String (hex_digit (n mod 16)) "")))))
        else String c "" in
      e ++ escape r
  end.

Definition quote (s : string) : string :=
  String dquote (escape s ++ String dquote "").

Fixpoint stringify (v : json) : string :=
  match v with
  | JNull => "null"
  | JBool true => "true"
  | JBool false => "false"
  | JNumber l => l
  | JString s => quote s
  | JArray items =>
      "[" ++ (fix elements (l : list json) : string :=
                match l with
                | [] => ""
                | [x] => stringify x
                | x :: r => stringify x ++ "," ++ elements r
                end) items ++ "]"
  | JObject members =>
      "{" ++ (fix fields (l : list (string * json)) : string :=
                match l with
                | [] => ""
                | [(k, x)] => quote k ++ ":" ++ stringify x
                | (k, x) :: r => quote k ++ ":" ++ stringify x ++ "," ++ fields r
                end) members ++ "}"
  end.

(** *** The parser *)

Definition is_ws (c : ascii) : bool :=
  let n := code c in (n =? 32) || (n =? 9) || (n =? 10) || (n =? 13).

Fixpoint skip_ws (s : string) : string :=
  match s with
  | String c r => if is_ws c then skip_ws r else s
  | EmptyString => s
  end.

Definition is_digit (c : ascii) : bool :=
  let n := code c in (48 <=? n) && (n <=? 57).

Definition hex_value (c : ascii) : option Z :=
  let n := code c in
  if (48 <=? n) && (n <=? 57) then Some (n - 48)
  else if (97 <=? n) && (n <=? 102) then Some (n - 87)
  else if (65 <=? n) && (n <=? 70) then Some (n - 55)
  else None.

Definition hex4 (a b c d : ascii) : option Z :=
  match hex_value a, hex_value b, hex_value c, hex_value d with
  | Some w, Some x, Some y, Some z => Some (((w * 16 + x) * 16 + y) * 16 + z)
  | _, _, _, _ => None
  end.

Definition chr (n : Z) : ascii := ascii_of_nat (Z.to_nat n).

(** The UTF-8 bytes of a code point; a lone surrogate gets the three-byte
    form of its value. *)
Definition utf8_of_code_point (n : Z) : string :=
  if n <? 0x80 then String (chr n) ""
  else if n <? 0x800
  then String (chr (0xC0 + n / 64)) (String (chr (0x80 + n mod 64)) "")
  else if n <? 0x10000
  then String (chr (0xE0 + n / 4096))
         (String (chr (0x80 + n / 64 mod 64)) (String (chr (0x80 + n mod 64)) ""))
  else String (chr (0xF0 + n / 262144))
         (String (chr (0x80 + n / 4096 mod 64))
            (String (chr (0x80 + n / 64 mod 64))
               (String (chr (0x80 + n mod 64)) ""))).

Definition flush (high : option Z) : string :=
  match high with
  | Some h => utf8_of_code_point h
  | None => ""
  end.

(** A code unit read from a \u escape, after a pending high surrogate. *)
Definition unit_after (high : option Z) (u : Z) : string * option Z :=
  match high with
  | Some h =>
      if (0xDC00 <=? u) && (u <=? 0xDFFF)
      then (utf8_of_code_point (0x10000 + (h - 0xD800) * 1024 + (u - 0xDC00)), None)
      else if (0xD800 <=? u) && (u <=? 0xDBFF)
      then (utf8_of_code_point h, Some u)
      else (utf8_of_code_point h ++ utf8_of_code_point u, None)
  | None =>
      if (0xD800 <=? u) && (u <=? 0xDBFF) then ("", Some u)
      else (utf8_of_code_point u, None)
  end.

(** The characters of a string literal after its opening quote; gives the
    string and what follows the closing quote. *)
Fixpoint string_body (s : string) (high : option Z) : option (string * string) :=
  let cons (p : string) (x : option (string * string)) :=
    match x with
    | Some (v, rest) => Some (p ++ v, rest)
    | None => None
    end in
  match s with
  | EmptyString => None
  | String c r =>
      if code c =? 34 then Some (flush high, r)
      else if code c =? 92 then
        match r with
        | String e r' =>
            let simple (n : Z) :=
              cons (flush high ++ String (chr n) "") (string_body r' None) in
            if code e =? 34 then simple 34
            else if code e =? 92 then simple 92
            else if code e =? 47 then simple 47
            else if code e =? 98 then simple 8
            else if code e =? 102 then simple 12
            else if code e =? 110 then simple 10
            else if code e =? 114 then simple 13
            else if code e =? 116 then simple 9
            else if code e =? 117 then
              match r' with
              | String h1 (String h2 (String h3 (String h4 r''))) =>
                  match hex4 h1 h2 h3 h4 with
                  | Some u =>
                      let (p, high') := unit_after high u in
                      cons p (string_body r'' high')
                  | None => None
                  end
              | _ => None
              end
            else None
        | EmptyString => None
        end
      else if code c <? 32 then None
      else cons (flush high ++ String c "") (string_body r None)
  end.

Fixpoint digits (s : string) : string * string :=
  match s with
  | String c r =>
      if is_digit c then let (d, rest) := digits r in (String c d, rest)
      else ("", s)
  | EmptyString => ("", s)
  end.

(** A number literal: an optional minus sign, then 0 or a digit string
    without leading zero, then optionally a point with digits, then
    optionally e or E with an optional sign and digits. *)
Definition number (s : string) : option (string * string) :=
  let (sign, s1) :=
    match s with
    | String "-" r => ("-", r)
    | _ => ("", s)
    end in
  let int :=
    match s1 with
    | String "0" r => Some ("0", r)
    | _ => let (d, r) := digits s1 in
           if String.eqb d "" then None else Some (d, r)
    end in
  match int with
  | None => None
  | Some (i, s2) =>
      let frac :=
        match s2 with
        | String "." r =>
            let (d, r') := digits r in
            if String.eqb d "" then None else Some ("." ++ d, r')
        | _ => Some ("", s2)
        end in
      match frac with
      | None => None
      | Some (f, s3) =>
          let after_e (e : ascii) (r : string) :=
            let (sg, r1) :=
              match r with
              | String "+" r' => ("+", r')
              | String "-" r' => ("-", r')
              | _ => ("", r)
              end in
            let (d, r2) := digits r1 in
            if String.eqb d "" then None
            else Some (sign ++ i ++ f ++ String e (sg ++ d), r2) in
          match s3 with
          | String "e" r => after_e "e"%char r
          | String "E" r => after_e "E"%char r
          | _ => Some (sign ++ i ++ f, s3)
          end
      end
  end.

Definition literal (word : string) (v : json) (s : string)
  : option (json * string) :=
  if String.prefix word s
  then Some (v, String.substring (String.length word)
                                 (String.length s - String.length word) s)
  else None.

(** A later member replaces an earlier one of the same name. *)
Fixpoint set_member (k : string) (v : json) (l : list (string * json))
  : list (string * json) :=
  match l with
  | [] => [(k, v)]
  | (k', v') :: r =>
      if String.eqb k k' then (k, v) :: r else (k', v') :: set_member k v r
  end.

Fixpoint value (fuel : nat) (s : string) : option (json * string) :=
  match fuel with
  | O => None
  | S f =>
      match skip_ws s with
      | EmptyString => None
      | String c r =>
          if code c =? 110 then literal "null" JNull (String c r)
          else if code c =? 116 then literal "true" (JBool true) (String c r)
          else if code c =? 102 then literal "false" (JBool false) (String c r)
          else if code c =? 34 then
            match string_body r None with
            | Some (v, rest) => Some (JString v, rest)
            | None => None
            end
          else if code c =? 91 then
            match skip_ws r with
            | String "]" rest => Some (JArray [], rest)
            | _ => elements f r []
            end
          else if code c =? 123 then
            match skip_ws r with
            | String "}" rest => Some (JObject [], rest)
            | _ => members f r []
            end
          else
            match number (String c r) with
            | Some (l, rest) => Some (JNumber l, rest)
            | None => None
            end
      end
  end

with elements (fuel : nat) (s : string) (acc : list json)
  : option (json * string) :=
  match fuel with
  | O => None
  | S f =>
      match value f s with
      | Some (v, rest) =>
          match skip_ws rest with
          | String "," rest' => elements f rest' (v :: acc)
          | String "]" rest' => Some (JArray (rev (v :: acc)), rest')
          | _ => None
          end
      | None => None
      end
  end

with members (fuel : nat) (s : string) (acc : list (string * json))
  : option (json * string) :=
  match fuel with
  | O => None
  | S f =>
      match skip_ws s with
      | String c r =>
          if negb (code c =? 34) then None else
          match string_body r None with
          | Some (k, rest) =>
              match skip_ws rest with
              | String ":" rest' =>
                  match value f rest' with
                  | Some (v, rest'') =>
                      match skip_ws rest'' with
                      | String "," r2 => members f r2 (set_member k v acc)
                      | String "}" r2 => Some (JObject (set_member k v acc), r2)
                      | _ => None
                      end
                  | None => None
                  end
              | _ => None
              end
          | None => None
          end
      | EmptyString => None
      end
  end.

(** [JSON.parse]: one value, with nothing but white space after it. *)
Definition parse (s : string) : option json :=
  match value (2 * String.length s + 2) s with
  | Some (v, rest) =>
      match skip_ws rest with
      | EmptyString => Some v
      | String _ _ => None
      end
  | None => None
  end.

(** [o.k] on a parsed object. *)
Fixpoint get (k : string) (l : list (string * json)) : option json :=
  match l with
  | [] => None
  | (k', v) :: r => if String.eqb k k' then Some v else get k r
  end.

End Json.

(** What [JSON.stringify] and [JSON.parse] do on the values of a type [T],
    the type parameter of [encrypt<T>] and [decrypt<T>]. [JSON_stringify]
    is [None] where [JSON.stringify] throws or gives [undefined];
    [JSON_parse] is [None] where [JSON.parse] throws [SyntaxError]. *)
Class JSON (T : Type) : Type := {
  JSON_stringify : T -> option string;
  JSON_parse : string -> option T }.

#[export] Instance JSON_json : JSON Json.json := {
  JSON_stringify v := Some (Json.stringify v);
  JSON_parse := Json.parse }.

(** ** JavaScript exceptions *)

(** The objects the modelled code throws or meets, by class. *)
Inductive exn : Type :=
| Error (message : string)
| TypeError (message : string)
| RangeError (message : string)
| SyntaxError (message : string)
| AuthenticationError (message : string) (statusCode : Z)
| FirebaseError (code : string)
| ZodError (issues : list Json.json)
| LibsqlError (code : string).

Inductive result (A : Type) : Type :=
| Ok (a : A)
| Throw (e : exn).
Arguments Ok {A} a.
Arguments Throw {A} e.

Definition bind {A B : Type} (r : result A) (k : A -> result B) : result B :=
  match r with
  | Ok a => k a
  | Throw e => Throw e
  end.

(** [try { body } catch (error) { handler }]. *)
Definition try_catch {A : Type} (body : result A) (handler : exn -> result A)
  : result A :=
  match body with
  | Ok a => Ok a
  | Throw e => handler e
  end.

Declare Scope js_scope.
Delimit Scope js_scope with js.
Notation "x <- c ;; k" := (bind c (fun x => k))
  (at level 61, c at next level, right associativity) : js_scope.

(** [error instanceof AuthenticationError]. *)
Definition instanceof_AuthenticationError (e : exn) : bool :=
  match e with
  | AuthenticationError _ _ => true
  | _ => false
  end.

Definition instanceof_ZodError (e : exn) : bool :=
  match e with
  | ZodError _ => true
  | _ => false
  end.

(** ** The [crypto] module of Node.js, as far as the repository uses it *)

Module crypto.

(** [crypto.hkdfSync('sha256', ikm, salt, info, keylen)]. *)
Definition hkdfSync_sha256 (ikm salt info : list byte) (keylen : nat)
  : result (list byte) :=
  if (255 * SHA256.digest_size <? keylen)%nat
  then Throw (RangeError "Invalid key length")
  else Ok (hkdf SHA256.sha256 SHA256.block_size SHA256.digest_size
                ikm salt info keylen).

(** A cipher object of 'aes-256-gcm': key, IV and the ciphertext put out
    so far. *)
Record Cipher : Type := mkCipher {
  cipher_key : list byte;
  cipher_iv : list byte;
  cipher_out : list byte }.

(** A decipher object: key, IV, the ciphertext taken in so far and the
    tag given by [setAuthTag]. *)
Record Decipher : Type := mkDecipher {
  decipher_key : list byte;
  decipher_iv : list byte;
  decipher_in : list byte;
  decipher_tag : option (list byte) }.

(** The checks [createCipheriv] and [createDecipheriv] share. Only the
    cipher the repository names is known to the model. A GCM cipher takes
    an IV of any length but zero. *)
Definition check_init (algorithm : string) (key iv : list byte)
  : result unit :=
  if negb (String.eqb algorithm "aes-256-gcm")
  then Throw (Error "Unknown cipher")
  else if negb (length key =? 32)%nat
  then Throw (RangeError "Invalid key length")
  else if (length iv =? 0)%nat
  then Throw (TypeError "Invalid initialization vector")
  else Ok tt.

Definition createCipheriv (algorithm : string) (key iv : list byte)
  : result Cipher :=
  (_ <- check_init algorithm key iv ;;
   Ok (mkCipher key iv []))%js.

(** [cipher.update(data)]: the output bytes and the cipher afterwards. *)
Definition Cipher_update (c : Cipher) (data : list byte)
  : list byte * Cipher :=
  let out := GCM.gctr (AES.encrypt_block (cipher_key c)) (cipher_iv c)
                      (length (cipher_out c)) data in
  (out, mkCipher (cipher_key c) (cipher_iv c) (cipher_out c ++ out)).

(** [cipher.final()]: a stream mode holds nothing back. *)
Definition Cipher_final (c : Cipher) : list byte := [].

(** [cipher.getAuthTag()] after [final()]; no additional data is set. *)
Definition Cipher_getAuthTag (c : Cipher) : list byte :=
  GCM.tag (AES.encrypt_block (cipher_key c)) (cipher_iv c) [] (cipher_out c).

Definition createDecipheriv (algorithm : string) (key iv : list byte)
  : result Decipher :=
  (_ <- check_init algorithm key iv ;;
   Ok (mkDecipher key iv [] None))%js.

(** Tag lengths GCM admits when no [authTagLength] was given. *)
Definition valid_tag_length (n : nat) : bool :=
  (n =? 4)%nat || (n =? 8)%nat || ((12 <=? n)%nat && (n <=? 16)%nat).

Definition Decipher_setAuthTag (d : Decipher) (t : list byte)
  : result Decipher :=
  match decipher_tag d with
  | Some _ => Throw (Error "Invalid state for operation setAuthTag")
  | None =>
      if valid_tag_length (length t)
      then Ok (mkDecipher (decipher_key d) (decipher_iv d) (decipher_in d)
                          (Some t))
      else Throw (TypeError "Invalid authentication tag length")
  end.

Definition Decipher_update (d : Decipher) (data : list byte)
  : list byte * Decipher :=
  let out := GCM.gctr (AES.encrypt_block (decipher_key d)) (decipher_iv d)
                      (length (decipher_in d)) data in
  (out, mkDecipher (decipher_key d) (decipher_iv d) (decipher_in d ++ data)
                   (decipher_tag d)).

(** [decipher.final()]: compares the given tag with as many bytes of the
    computed one and throws when they differ or no tag was given. *)
Definition Decipher_final (d : Decipher) : result (list byte) :=
  match decipher_tag d with
  | None => Throw (Error "Unsupported state or unable to authenticate data")
  | Some t =>
      let expected := GCM.tag (AES.encrypt_block (decipher_key d))
                              (decipher_iv d) [] (decipher_in d) in
      if Buffer_eqb t (firstn (length t) expected)
      then Ok []
      else Throw (Error "Unsupported state or unable to authenticate data")
  end.

End crypto.

(** ** lib/encryption.ts *)

(** [process.env]. *)
Definition Env : Type := string -> option string.

(** [crypto.randomBytes(n)] on a source of random bytes. *)
Definition randomBytes (source : nat -> byte) (n : nat) : list byte :=
  map source (seq 0 n).

Definition ALGORITHM : string := "aes-256-gcm".
Definition IV_LENGTH : nat := 16.
Definition AUTH_TAG_LENGTH : nat := 16.
Definition SALT_LENGTH : nat := 32.
Definition KEY_LENGTH : nat := 32.

(** What is left of a string once its falsy cases are set apart: [!s] holds
    for [undefined] and for the empty string. *)
Definition truthy (s : option string) : option string :=
  match s with
  | Some s' => if String.eqb s' "" then None else Some s'
  | None => None
  end.

Definition getMasterSecret (env : Env) : result (list byte) :=
  match truthy (env "ENCRYPTION_MASTER_SECRET"%string) with
  | None =>
      Throw (Error "ENCRYPTION_MASTER_SECRET environment variable is not set")
  | Some secret =>
      Ok (Base64.decode secret)
  end.

Definition deriveUserKey (env : Env) (firebaseUid : string)
  : result (list byte) :=
  (masterSecret <- getMasterSecret env ;;
   let salt := UTF8.encode firebaseUid in
   let info := UTF8.encode "tenants-app-user-encryption-key" in
   crypto.hkdfSync_sha256 masterSecret salt info KEY_LENGTH)%js.

Record EncryptedData : Type := mkEncryptedData {
  ciphertext : string;
  iv : string;
  authTag : string }.

Section Encryption.

Context {T : Type} `{JSON T}.

Variable env : Env.

Definition encrypt (random : nat -> byte) (data : T) (firebaseUid : string)
  : result EncryptedData :=
  try_catch
    (key <- deriveUserKey env firebaseUid ;;
     let iv := randomBytes random IV_LENGTH in
     cipher <- crypto.createCipheriv ALGORITHM key iv ;;
     plaintext <- match JSON_stringify data with
                  | Some s => Ok s
                  | None => Throw (TypeError "The data argument must be of type string")
                  end ;;
     let (updated, cipher') := crypto.Cipher_update cipher (UTF8.encode plaintext) in
     let ciphertext := updated ++ crypto.Cipher_final cipher' in
     let authTag := crypto.Cipher_getAuthTag cipher' in
     Ok (mkEncryptedData (Base64.encode ciphertext) (Base64.encode iv)
                         (Base64.encode authTag)))%js
    (fun _ => Throw (Error "Encryption failed")).

Definition decrypt (encryptedData : EncryptedData) (firebaseUid : string)
  : result T :=
  try_catch
    (key <- deriveUserKey env firebaseUid ;;
     let ciphertext := Base64.decode (ciphertext encryptedData) in
     let iv := Base64.decode (iv encryptedData) in
     let authTag := Base64.decode (authTag encryptedData) in
     decipher <- crypto.createDecipheriv ALGORITHM key iv ;;
     decipher <- crypto.Decipher_setAuthTag decipher authTag ;;
     let (updated, decipher') := crypto.Decipher_update decipher ciphertext in
     final <- crypto.Decipher_final decipher' ;;
     let plaintext := updated ++ final in
     match JSON_parse (UTF8.decode plaintext) with
     | Some value => Ok value
     | None => Throw (SyntaxError "Unexpected token in JSON")
     end)%js
    (fun _ => Throw (Error "Decryption failed or data integrity compromised")).

(** The blob kept in the database: the three components as a JSON object,
    base64 encoded. *)
Definition encryptField (random : nat -> byte) (data : T) (firebaseUid : string)
  : result string :=
  (encrypted <- encrypt random data firebaseUid ;;
   let combined :=
     Json.stringify
       (Json.JObject [("ciphertext"%string, Json.JString (ciphertext encrypted));
                      ("iv"%string, Json.JString (iv encrypted));
                      ("authTag"%string, Json.JString (authTag encrypted))]) in
   Ok (Base64.encode (UTF8.encode combined)))%js.

End Encryption.

(** ** The collaborators outside the repository *)

(** The credentials handed to [cert]. *)
Record ServiceAccount : Type := mkServiceAccount {
  projectId : option string;
  clientEmail : option string;
  privateKey : option string }.

(** The claims of a verified ID token, as far as the gate reads them. *)
Record DecodedIdToken : Type := mkDecodedIdToken {
  token_uid : string;
  token_email : option string;
  token_email_verified : option bool;
  token_claims : list (string * Json.json) }.

(** [ResultSet] of the libSQL client; the row id is a bigint. *)
Record ResultSet : Type := mkResultSet {
  lastInsertRowid : option Z }.

(** firebase-admin, the identity provider behind it and the libSQL client
    with its database. A function that can throw gives [None], or the error
    code on the right for [verifyIdToken]: none of them can throw the
    [AuthenticationError] of the repository. *)
Inductive ZodCheck : Type :=
| expected_object
| expected_string
| too_small (minimum : Z)
| too_big (maximum : Z).

Class Platform : Type := {
  zod_issue : ZodCheck -> list string -> option Json.json -> Json.json;
  App : Type;
  initializeApp : ServiceAccount -> option App;
  verifyIdToken : App -> string -> bool -> DecodedIdToken + string;
  Client : Type;
  createClient : string -> string -> option Client;
  Database : Type;
  execute : Client -> string -> list string -> Database
            -> option ResultSet * Database }.

Section Server.

Context `{Platform}.

(** What a request can read or change outside itself. *)
Record World : Type := mkWorld {
  process_env : Env;
  apps : list App;                  (* getApps() of firebase-admin *)
  firebaseAdminApp : option App;    (* the variable of firebase-admin.ts *)
  db : option Client;               (* the variable of database.ts *)
  database : Database;
  random : nat -> byte }.

(** A computation that reads and changes the world and may throw. *)
Definition Eff (A : Type) : Type := World -> result A * World.

Definition ret {A : Type} (a : A) : Eff A := fun w => (Ok a, w).

Definition throw {A : Type} (e : exn) : Eff A := fun w => (Throw e, w).

Definition bindE {A B : Type} (c : Eff A) (k : A -> Eff B) : Eff B :=
  fun w => match c w with
           | (Ok a, w') => k a w'
           | (Throw e, w') => (Throw e, w')
           end.

Definition try_catchE {A : Type} (body : Eff A) (handler : exn -> Eff A)
  : Eff A :=
  fun w => match body w with
           | (Ok a, w') => (Ok a, w')
           | (Throw e, w') => handler e w'
           end.

Definition lift {A : Type} (r : result A) : Eff A := fun w => (r, w).

(** ** lib/firebase-admin.ts *)

(** [s.replace(/\\n/g, '\n')]: a backslash followed by n becomes a line
    feed. *)
Fixpoint unescape_newlines (s : string) : string :=
  match s with
  | String "\" (String "n" r) => String "010" (unescape_newlines r)
  | String c r => String c (unescape_newlines r)
  | EmptyString => EmptyString
  end.

Definition getFirebaseAdmin : Eff App :=
  fun w =>
    match apps w with
    | [] =>
        let env := process_env w in
        let account :=
          mkServiceAccount (env "FIREBASE_ADMIN_PROJECT_ID"%string)
                           (env "FIREBASE_ADMIN_CLIENT_EMAIL"%string)
                           (option_map unescape_newlines
                              (env "FIREBASE_ADMIN_PRIVATE_KEY"%string)) in
        match initializeApp account with
        | Some app =>
            (Ok app, mkWorld (process_env w) [app] (Some app) (db w)
                             (database w) (random w))
        | None => (Throw (Error "Failed to initialize Firebase Admin SDK"), w)
        end
    | app :: _ =>
        (Ok app, mkWorld (process_env w) (apps w) (Some app) (db w)
                         (database w) (random w))
    end.

(** [getAuth(app)] is the app seen as its Auth service. *)
Definition getFirebaseAdminAuth : Eff App := getFirebaseAdmin.

(** [auth.verifyIdToken(token, checkRevoked)]. *)
Definition Auth_verifyIdToken (auth : App) (token : string) (checkRevoked : bool)
  : Eff DecodedIdToken :=
  match verifyIdToken auth token checkRevoked with
  | inl decoded => ret decoded
  | inr code => throw (FirebaseError code)
  end.

(** ** lib/auth-middleware.ts *)

(** A request: the header lines as they were given, and the bytes of the
    body. *)
Record NextRequest : Type := mkNextRequest {
  request_headers : list (string * string);
  request_body : list byte }.

(** Header names are compared without regard to the case of ASCII
    letters. *)
Definition lower (c : ascii) : ascii :=
  let n := nat_of_ascii c in
  if (65 <=? n)%nat && (n <=? 90)%nat then ascii_of_nat (n + 32) else c.

Fixpoint lowercase (s : string) : string :=
  match s with
  | EmptyString => EmptyString
  | String c r => String (lower c) (lowercase r)
  end.

(** A header value is kept without its leading and trailing HTTP white
    space: tab, line feed, carriage return and space. *)
Definition http_whitespace (c : ascii) : bool :=
  let n := nat_of_ascii c in
  (n =? 9)%nat || (n =? 10)%nat || (n =? 13)%nat || (n =? 32)%nat.

Fixpoint strip_leading (s : string) : string :=
  match s with
  | EmptyString => EmptyString
  | String c r => if http_whitespace c then strip_leading r else s
  end.

Fixpoint strip_trailing (s : string) : string :=
  match s with
  | EmptyString => EmptyString
  | String c r =>
      match strip_trailing r with
      | EmptyString => if http_whitespace c then EmptyString
                       else String c EmptyString
      | r' => String c r'
      end
  end.

Definition normalize (value : string) : string :=
  strip_trailing (strip_leading value).

Fixpoint header_values (name : string) (l : list (string * string))
  : list string :=
  match l with
  | [] => []
  | (k, v) :: r =>
      if String.eqb (lowercase k) (lowercase name)
      then normalize v :: header_values name r
      else header_values name r
  end.

(** [request.headers.get(name)]: the values of the lines of that name,
    joined by a comma and a space; [null] when there is no such line. *)
Definition Headers_get (name : string) (l : list (string * string))
  : option string :=
  match header_values name l with
  | [] => None
  | values => Some (String.concat ", " values)
  end.

Record AuthenticatedUser : Type := mkAuthenticatedUser {
  uid : string;
  email : option string;
  emailVerified : bool;
  token : DecodedIdToken }.

(** [s.split(sep)] for a separator of one character. *)
Fixpoint split (sep : ascii) (s : string) : list string :=
  match s with
  | EmptyString => [EmptyString]
  | String c r =>
      if Ascii.eqb c sep then EmptyString :: split sep r
      else match split sep r with
           | h :: t => String c h :: t
           | [] => [String c EmptyString]
           end
  end.

Definition verifyAuth (request : NextRequest) : Eff AuthenticatedUser :=
  try_catchE
    (let authHeader := Headers_get "authorization" (request_headers request) in
     match truthy authHeader with
     | None => throw (AuthenticationError "Missing authorization header" 401)
     | Some header =>
         let parts := split " " header in
         let bearer := nth_error parts 0 in
         let token := nth_error parts 1 in
         match bearer, truthy token with
         | Some bearer, Some token =>
             if negb (String.eqb bearer "Bearer")
             then throw (AuthenticationError
                           "Invalid authorization header format" 401)
             else
               bindE getFirebaseAdminAuth (fun auth =>
               bindE (Auth_verifyIdToken auth token true) (fun decodedToken =>
               ret (mkAuthenticatedUser
                      (token_uid decodedToken)
                      (token_email decodedToken)
                      (match token_email_verified decodedToken with
                       | Some true => true
                       | _ => false
                       end)
                      decodedToken)))
         | _, _ =>
             throw (AuthenticationError
                      "Invalid authorization header format" 401)
         end
     end)
    (fun error =>
       if instanceof_AuthenticationError error
       then throw error
       else throw (AuthenticationError "Invalid or expired token" 401)).

Record Response : Type := mkResponse {
  status : Z;
  response_headers : list (string * string);
  response_body : string }.

Definition json_headers : list (string * string) :=
  [("Content-Type"%string, "application/json"%string)].

(** [new Response(body, { status, headers })] with a body that is not
    [null]. The status is read as an unsigned 16-bit integer; the
    constructor throws a [RangeError] for one outside 200..599 and a
    [TypeError] for a status that allows no body. *)
Definition null_body_status (status : Z) : bool :=
  (status =? 101) || (status =? 103) || (status =? 204) || (status =? 205)
  || (status =? 304).

Definition new_Response (body : string) (status : Z)
           (headers : list (string * string)) : result Response :=
  let status := status mod 65536 in
  if (status <? 200) || (599 <? status)
  then Throw (RangeError "init.status must be in the range of 200 to 599, inclusive.")
  else if null_body_status status
       then Throw (TypeError "Invalid response status code")
       else Ok (mkResponse status headers body).

Definition withAuth
           (handler : NextRequest -> AuthenticatedUser -> Eff Response)
           (request : NextRequest) : Eff Response :=
  try_catchE
    (bindE (verifyAuth request) (fun user => handler request user))
    (fun error =>
       match error with
       | AuthenticationError message statusCode =>
           lift (new_Response
                   (Json.stringify
                      (Json.JObject [("error"%string, Json.JString message)]))
                   statusCode json_headers)
       | _ =>
           lift (new_Response
                   (Json.stringify
                      (Json.JObject [("error"%string,
                                      Json.JString "Authentication failed")]))
                   500 json_headers)
       end).

(** ** lib/database.ts *)

Definition getDatabase : Eff Client :=
  fun w =>
    match db w with
    | Some client => (Ok client, w)
    | None =>
        match truthy (process_env w "TURSO_DATABASE_URL"%string) with
        | None =>
            (Throw (Error "TURSO_DATABASE_URL environment variable is not set"), w)
        | Some url =>
            match truthy (process_env w "TURSO_AUTH_TOKEN"%string) with
            | None =>
                (Throw (Error "TURSO_AUTH_TOKEN environment variable is not set"), w)
            | Some authToken =>
                match createClient url authToken with
                | Some client =>
                    (Ok client,
                     mkWorld (process_env w) (apps w) (firebaseAdminApp w)
                             (Some client) (database w) (random w))
                | None => (Throw (LibsqlError "URL_INVALID"), w)
                end
            end
        end
    end.

(** [db.execute({ sql, args })]. *)
Definition Client_execute (client : Client) (sql : string) (args : list string)
  : Eff ResultSet :=
  fun w =>
    match execute client sql args (database w) with
    | (Some rs, d) =>
        (Ok rs, mkWorld (process_env w) (apps w) (firebaseAdminApp w) (db w)
                        d (random w))
    | (None, d) =>
        (Throw (LibsqlError "SERVER_ERROR"),
         mkWorld (process_env w) (apps w) (firebaseAdminApp w) (db w)
                 d (random w))
    end.

(** ** app/api/properties/route.ts *)

(** [z.string().min(lo).max(hi)] on member [k] of the body; an absent
    member is an issue unless [optional]. The issue object is zod's: it is
    made from the check that failed, the path and the value found. *)
Definition check_string (k : string) (lo hi : Z) (optional : bool)
           (o : list (string * Json.json))
  : list (string * Json.json) * list Json.json :=
  match Json.get k o with
  | Some (Json.JString s) =>
      if (lo <=? UTF8.js_length s) && (UTF8.js_length s <=? hi)
      then ([(k, Json.JString s)], [])
      else ([], [zod_issue (if UTF8.js_length s <? lo then too_small lo
                             else too_big hi)
                           [k] (Some (Json.JString s))])
  | Some v => ([], [zod_issue expected_string [k] (Some v)])
  | None => if optional then ([], [])
            else ([], [zod_issue expected_string [k] None])
  end.

(** [createPropertySchema.parse(body)]: the known members in the order of
    the schema, or a [ZodError] with the issues in that order. *)
Definition createPropertySchema_parse (body : Json.json) : result Json.json :=
  match body with
  | Json.JObject o =>
      let checks :=
        [ check_string "name" 1 200 false o;
          check_string "address" 1 500 false o;
          check_string "city" 1 100 false o;
          check_string "state" 1 100 false o;
          check_string "zip" 1 20 false o;
          check_string "country" 1 100 false o;
          check_string "notes" 0 1000 true o ] in
      match flat_map snd checks with
      | [] => Ok (Json.JObject (flat_map fst checks))
      | issues => Throw (ZodError issues)
      end
  | _ => Throw (ZodError [zod_issue expected_object [] (Some body)])
  end.

(** [request.json()]: the body is decoded as UTF-8, a byte order mark at
    its start is dropped, and the text is parsed. *)
Definition drop_bom (l : list byte) : list byte :=
  match l with
  | xef :: xbb :: xbf :: r => r
  | _ => l
  end.

Definition NextRequest_json (request : NextRequest) : result Json.json :=
  match Json.parse (UTF8.decode (drop_bom (request_body request))) with
  | Some v => Ok v
  | None => Throw (SyntaxError "Unexpected token in JSON")
  end.

(** [crypto.randomBytes] draws from the world; the bytes drawn are gone. *)
Definition draw (n : nat) (w : World) : World :=
  mkWorld (process_env w) (apps w) (firebaseAdminApp w) (db w) (database w)
          (fun i => random w (i + n)%nat).

(** [encryptField] where the random bytes come from the world: [encrypt]
    draws its IV once the key is derived. *)
Definition encryptField_in_world (data : Json.json) (firebaseUid : string)
  : Eff string :=
  fun w => (encryptField (process_env w) (random w) data firebaseUid,
            match deriveUserKey (process_env w) firebaseUid with
            | Ok _ => draw IV_LENGTH w
            | Throw _ => w
            end).

(** [NextResponse.json({ success: true, propertyId }, { status: 201 })]:
    [JSON.stringify] leaves an undefined member out and throws a
    [TypeError] on a bigint. *)
Definition created (propertyId : option Z) : result Response :=
  match propertyId with
  | None =>
      Ok (mkResponse 201 json_headers
            (Json.stringify (Json.JObject [("success"%string, Json.JBool true)])))
  | Some _ => Throw (TypeError "Do not know how to serialize a BigInt")
  end.

Definition handler (request : NextRequest) (user : AuthenticatedUser)
  : Eff Response :=
  try_catchE
    (bindE (lift (NextRequest_json request)) (fun body =>
     bindE (lift (createPropertySchema_parse body)) (fun validatedData =>
     bindE (encryptField_in_world validatedData (uid user)) (fun encryptedData =>
     bindE getDatabase (fun db =>
     bindE (Client_execute db
              "INSERT INTO properties (owner_uid, encrypted_data) VALUES (?, ?)"
              [uid user; encryptedData]) (fun result =>
     lift (created (lastInsertRowid result))))))))
    (fun error =>
       match error with
       | ZodError issues =>
           ret (mkResponse 400 json_headers
                  (Json.stringify
                     (Json.JObject
                        [("error"%string, Json.JString "Validation failed");
                         ("details"%string, Json.JArray issues)])))
       | _ =>
           ret (mkResponse 500 json_headers
                  (Json.stringify
                     (Json.JObject [("error"%string,
                                     Json.JString "Failed to create property")])))
       end).

Definition POST : NextRequest -> Eff Response := withAuth handler.

End Server.

(** ** Notions used in the statements *)

(** The master secret is set: the variable holds a non-empty string. *)
Definition master_secret_set (env : Env) : Prop :=
  exists secret, truthy (env "ENCRYPTION_MASTER_SECRET"%string) = Some secret.

(** A value is JSON-serializable when [JSON.stringify] gives a well-formed
    text for it that [JSON.parse] reads back as the same value. *)
Definition serializable {T : Type} `{JSON T} (data : T) : Prop :=
  exists text, JSON_stringify data = Some text
               /\ UTF8.well_formed text
               /\ JSON_parse text = Some data.

(** AES-256-GCM without additional data, as [encrypt] and [decrypt] use it:
    the ciphertext of a plaintext and the tag of a ciphertext. *)
Definition gcm_stream (key iv data : list byte) : list byte :=
  GCM.gctr (AES.encrypt_block key) iv 0 data.

Definition gcm_tag (key iv c : list byte) : list byte :=
  GCM.tag (AES.encrypt_block key) iv [] c.

(** The tag of a record verifies under a key: the decipher is set up and
    [final] does not throw. *)
Definition authenticates (key : list byte) (r : EncryptedData) : Prop :=
  let c := Base64.decode (ciphertext r) in
  let n := Base64.decode (iv r) in
  let t := Base64.decode (authTag r) in
  n <> [] /\ crypto.valid_tag_length (length t) = true
  /\ t = firstn (length t) (gcm_tag key n c).

(** The plaintext bytes [decrypt] gets from a record. *)
Definition plaintext_of (key : list byte) (r : EncryptedData) : list byte :=
  gcm_stream key (Base64.decode (iv r)) (Base64.decode (ciphertext r)).

(** The error of [decrypt]. *)
Definition decryption_error : exn :=
  Error "Decryption failed or data integrity compromised".

(** The character U+0000. *)
Definition nul : string := String "000"%char EmptyString.

Fixpoint no_space (s : string) : bool :=
  match s with
  | EmptyString => true
  | String c r => negb (Ascii.eqb c " "%char) && no_space r
  end.

(** The key block HKDF-Extract works with for an identity. *)
Definition key_block (firebaseUid : string) : list byte :=
  hmac_key_block SHA256.sha256 SHA256.block_size (UTF8.encode firebaseUid).


(** The record [encrypt] builds from a key, an IV and the plaintext bytes. *)
Definition seal (key n plaintext : list byte) : EncryptedData :=
  let c := gcm_stream key n plaintext in
  mkEncryptedData (Base64.encode c) (Base64.encode n)
                  (Base64.encode (gcm_tag key n c)).

(** The token [verifyAuth] takes from a header: the second part of the
    split, when the first is the scheme and the second is not empty. *)
Definition bearer_token (header : string) : option string :=
  match split " " header with
  | scheme :: t :: _ =>
      if String.eqb scheme "Bearer" then truthy (Some t) else None
  | _ => None
  end.

Definition missing_header : exn :=
  AuthenticationError "Missing authorization header" 401.
Definition invalid_format : exn :=
  AuthenticationError "Invalid authorization header format" 401.
Definition invalid_token : exn :=
  AuthenticationError "Invalid or expired token" 401.

(** The response [withAuth] gives for an [AuthenticationError] whose
    status [new Response] takes as it is. *)
Definition rejection (message : string) (statusCode : Z) : Response :=
  mkResponse statusCode json_headers
    (Json.stringify (Json.JObject [("error"%string, Json.JString message)])).

(** The response [withAuth] gives for any other error. *)
Definition internal_failure : Response :=
  mkResponse 500 json_headers
    (Json.stringify
       (Json.JObject [("error"%string, Json.JString "Authentication failed")])).

Definition user_of (decoded : DecodedIdToken) : AuthenticatedUser :=
  mkAuthenticatedUser (token_uid decoded) (token_email decoded)
    (match token_email_verified decoded with
     | Some true => true
     | _ => false
     end)
    decoded.

(** ** A concrete setting, for the statements that name one *)

Module Scenario.

(** The master secret of the end-to-end scenario: base64 of 32 times the
    character 0. *)
Definition master_secret : string :=
  "MDAwMDAwMDAwMDAwMDAwMDAwMDAwMDAwMDAwMDAwMDA=".

Definition env : Env :=
  fun name =>
    if String.eqb name "ENCRYPTION_MASTER_SECRET" then Some master_secret
    else if String.eqb name "FIREBASE_ADMIN_PROJECT_ID" then Some "tenants"%string
    else if String.eqb name "FIREBASE_ADMIN_CLIENT_EMAIL"
    then Some "admin@tenants.example"%string
    else if String.eqb name "FIREBASE_ADMIN_PRIVATE_KEY" then Some "key\nlines"%string
    else if String.eqb name "TURSO_DATABASE_URL"
    then Some "libsql://tenants.example"%string
    else if String.eqb name "TURSO_AUTH_TOKEN" then Some "turso-token"%string
    else None.

(** The same without the credentials of firebase-admin. *)
Definition env_without_firebase : Env :=
  fun name =>
    if String.prefix "FIREBASE" name then None else env name.

(** An environment with nothing but a master secret. *)
Definition env_secret (secret : string) : Env :=
  fun name =>
    if String.eqb name "ENCRYPTION_MASTER_SECRET" then Some secret
    else None.

Definition random (i : nat) : byte := byte_of_Z (Z.of_nat (17 * i + 3)).

Definition data : Json.json :=
  Json.JObject [("name"%string, Json.JString "Oak St Apt")].

Definition alice : string := "user-42".
Definition bob : string := "user-43".
(** "user-42" followed by U+0000: another string. *)
Definition alice_nul : string := String.append alice nul.

(** The key HKDF derives for "user-42", written out. *)
Definition alice_key : list byte :=
  [ xea; x60; x91; x20; x50; x42; x36; xb1; xbb; x5a; xa4; x6b; xe7; xf7;
    x68; xed; x23; xa2; x4d; x1b; xfd; xe0; x80; xfe; x6c; x18; xec; x4c;
    x9a; x59; x3a; xe7 ].

(** A record whose tag verifies for "user-42" and whose plaintext, the
    text [not json], is no JSON document. *)
Definition undecodable : EncryptedData :=
  seal alice_key (randomBytes random IV_LENGTH) (UTF8.encode "not json").

(** The same with a tag of sixteen zero bytes. *)
Definition forged : EncryptedData :=
  mkEncryptedData (ciphertext undecodable) (iv undecodable)
                  "AAAAAAAAAAAAAAAAAAAAAA==".

Definition decoded : DecodedIdToken :=
  mkDecodedIdToken alice (Some "alice@tenants.example"%string) (Some true) [].

(** A platform where the provider accepts one token and the database
    keeps the arguments of every statement. *)
#[export] Instance platform : Platform := {
  zod_issue check path input :=
    Json.JObject
      [("code"%string,
        Json.JString match check with
                     | expected_object | expected_string => "invalid_type"
                     | too_small _ => "too_small"
                     | too_big _ => "too_big"
                     end);
       ("path"%string, Json.JArray (map Json.JString path))];
  App := string;
  initializeApp account :=
    match projectId account, clientEmail account, privateKey account with
    | Some p, Some _, Some _ => Some p
    | _, _, _ => None
    end;
  verifyIdToken app t checkRevoked :=
    if String.eqb t "valid-token" then inl decoded
    else if String.eqb t "revoked-token" then inr "auth/id-token-revoked"%string
    else inr "auth/argument-error"%string;
  Client := string;
  createClient url authToken := Some url;
  Database := list (list string);
  execute client sql args rows :=
    (Some (mkResultSet (Some (Z.of_nat (length rows) + 1))), rows ++ [args]) }.

Definition world : World := mkWorld env [] None None [] random.

Definition world_without_firebase : World :=
  mkWorld env_without_firebase [] None None [] random.

Definition request (header : string) : NextRequest :=
  mkNextRequest [("Authorization"%string, header)]
    (UTF8.encode "not a property").

End Scenario.


(** What [encrypt] gives in the concrete setting for the value and
    "user-42", written out. *)
Definition scenario_record : EncryptedData :=
  mkEncryptedData "w03mx8Yt/GOLh+lCXF7jYG3lktrJ" "AxQlNkdYaXqLnK2+z+DxAg=="
                  "zD1dG7mb9P2lcHUyc/UZLQ==".


(** [authenticates], decided. *)
Definition authenticatesb (key : list byte) (r : EncryptedData) : bool :=
  let c := Base64.decode (ciphertext r) in
  let n := Base64.decode (iv r) in
  let t := Base64.decode (authTag r) in
  negb (length n =? 0)%nat && crypto.valid_tag_length (length t)
  && Buffer_eqb t (firstn (length t) (gcm_tag key n c)).


Section GateNotions.

Context `{Platform}.

(** What the gate does with the token it took from the header: the
    provider's verdict, with every failure turned into the 401 error. *)
Definition verify_token (t : string) : Eff AuthenticatedUser :=
  fun w =>
    match getFirebaseAdminAuth w with
    | (Ok auth, w') =>
        match verifyIdToken auth t true with
        | inl decoded => (Ok (user_of decoded), w')
        | inr _ => (Throw invalid_token, w')
        end
    | (Throw _, w') => (Throw invalid_token, w')
    end.

(** What [withAuth] makes of a caught error: a response, or the error
    [new Response] throws for the status of an [AuthenticationError]. *)
Definition on_error (error : exn) : result Response :=
  match error with
  | AuthenticationError message statusCode =>
      new_Response
        (Json.stringify (Json.JObject [("error"%string, Json.JString message)]))
        statusCode json_headers
  | _ => Ok internal_failure
  end.

End GateNotions.


(** The world of the concrete setting once firebase-admin is initialised,
    and a handler that throws. *)
Definition scenario_world_initialised : World :=
  @mkWorld Scenario.platform Scenario.env ["tenants"%string]
           (Some "tenants"%string) None [] Scenario.random.

Definition scenario_failing_handler
  : NextRequest -> AuthenticatedUser -> @Eff Scenario.platform Response :=
  fun _ _ => throw (TypeError "Cannot read properties of undefined").

(** A handler that throws the error of the gate with a status of its
    own. *)
Definition scenario_refusing_handler (statusCode : Z)
  : NextRequest -> AuthenticatedUser -> @Eff Scenario.platform Response :=
  fun _ _ => throw (AuthenticationError "Nothing to show" statusCode).


(** ** lib/encryption.ts, continued: reading a stored field *)

Section Storage.

Context {T : Type} `{JSON T}.

Variable env : Env.

(** What [Buffer.from] makes of an array or an object: outside the model. *)
Variable from_object : Json.json -> result (list byte).

(** [encryptedData.k] on whatever [JSON.parse] returned: reading a member
    of [null] throws, a value that has no such member gives [undefined]. *)
Definition member (v : Json.json) (k : string) : result (option Json.json) :=
  match v with
  | Json.JNull => Throw (TypeError "Cannot read properties of null")
  | Json.JObject o => Ok (Json.get k o)
  | _ => Ok None
  end.

(** [Buffer.from(x, 'base64')]: a string is decoded; [undefined], [null],
    a number and a boolean are a [TypeError]. *)
Definition Buffer_from_base64 (x : option Json.json) : result (list byte) :=
  match x with
  | Some (Json.JString s) => Ok (Base64.decode s)
  | Some (Json.JArray l) => from_object (Json.JArray l)
  | Some (Json.JObject o) => from_object (Json.JObject o)
  | _ => Throw (TypeError "The first argument must be of type string")
  end.

(** [decrypt] on a value that was cast to [EncryptedData], not built as
    one. *)
Definition decrypt_parsed (encryptedData : Json.json) (firebaseUid : string)
  : result T :=
  try_catch
    (key <- deriveUserKey env firebaseUid ;;
     c <- member encryptedData "ciphertext" ;;
     ciphertext <- Buffer_from_base64 c ;;
     n <- member encryptedData "iv" ;;
     iv <- Buffer_from_base64 n ;;
     t <- member encryptedData "authTag" ;;
     authTag <- Buffer_from_base64 t ;;
     decipher <- crypto.createDecipheriv ALGORITHM key iv ;;
     decipher <- crypto.Decipher_setAuthTag decipher authTag ;;
     let (updated, decipher') := crypto.Decipher_update decipher ciphertext in
     final <- crypto.Decipher_final decipher' ;;
     let plaintext := updated ++ final in
     match JSON_parse (UTF8.decode plaintext) with
     | Some value => Ok value
     | None => Throw (SyntaxError "Unexpected token in JSON")
     end)%js
    (fun _ => Throw (Error "Decryption failed or data integrity compromised")).

Definition decryptField (encryptedBlob : string) (firebaseUid : string)
  : result T :=
  let combined := UTF8.decode (Base64.decode encryptedBlob) in
  match Json.parse combined with
  | Some encrypted => decrypt_parsed encrypted firebaseUid
  | None => Throw (SyntaxError "Unexpected token in JSON")
  end.

End Storage.

(** A record with another tag. *)
Definition with_tag (r : EncryptedData) (t : list byte) : EncryptedData :=
  mkEncryptedData (ciphertext r) (iv r) (Base64.encode t).

(** The record as the object [encryptField] serializes. *)
Definition record_object (r : EncryptedData) : Json.json :=
  Json.JObject [("ciphertext"%string, Json.JString (ciphertext r));
                ("iv"%string, Json.JString (iv r));
                ("authTag"%string, Json.JString (authTag r))].

(** A string without a quotation mark, a backslash or a control
    character: [JSON.stringify] puts it between quotation marks as it is. *)
Definition plain_char (c : ascii) : bool :=
  (32 <=? Json.code c) && negb (Json.code c =? 34) && negb (Json.code c =? 92).

Fixpoint plain (s : string) : bool :=
  match s with
  | EmptyString => true
  | String c r => plain_char c && plain r
  end.

(** A string of ASCII characters. *)
Fixpoint ascii_only (s : string) : bool :=
  match s with
  | EmptyString => true
  | String c r => (Json.code c <? 128) && ascii_only r
  end.

(** No backslash followed by n. *)
Fixpoint no_escaped_newline (s : string) : bool :=
  match s with
  | String "\" (String "n" _) => false
  | String _ r => no_escaped_newline r
  | EmptyString => true
  end.


(** The text of an object member whose value is a string that needs no
    escape, followed by [rest]. *)
Definition member_text (k s rest : string) : string :=
  String Json.dquote (k ++ String Json.dquote (String ":"
    (String Json.dquote (s ++ String Json.dquote rest)))).


(** The length bounds [createPropertySchema] sets for a member. *)
Definition field_bounds (k : string) : option (Z * Z) :=
  if String.eqb k "name" then Some (1, 200)
  else if String.eqb k "address" then Some (1, 500)
  else if String.eqb k "city" then Some (1, 100)
  else if String.eqb k "state" then Some (1, 100)
  else if String.eqb k "zip" then Some (1, 20)
  else if String.eqb k "country" then Some (1, 100)
  else if String.eqb k "notes" then Some (0, 1000)
  else None.

Definition required_fields : list string :=
  [ "name"; "address"; "city"; "state"; "zip"; "country" ]%string.

(** The statement of the route. *)
Definition insert_property : string :=
  "INSERT INTO properties (owner_uid, encrypted_data) VALUES (?, ?)".

(** The two error responses of the route. *)
Definition validation_failed (issues : list Json.json) : Response :=
  mkResponse 400 json_headers
    (Json.stringify
       (Json.JObject [("error"%string, Json.JString "Validation failed");
                      ("details"%string, Json.JArray issues)])).

Definition creation_failed : Response :=
  mkResponse 500 json_headers
    (Json.stringify
       (Json.JObject [("error"%string, Json.JString "Failed to create property")])).

(** A body the schema accepts, and one without a city. *)
Definition scenario_property : Json.json :=
  Json.JObject [("name"%string, Json.JString "Oak St Apt");
                ("address"%string, Json.JString "12 Oak St");
                ("city"%string, Json.JString "Springfield");
                ("state"%string, Json.JString "IL");
                ("zip"%string, Json.JString "62701");
                ("country"%string, Json.JString "US");
                ("owner"%string, Json.JString "someone else")].

Definition scenario_validated : Json.json :=
  Json.JObject [("name"%string, Json.JString "Oak St Apt");
                ("address"%string, Json.JString "12 Oak St");
                ("city"%string, Json.JString "Springfield");
                ("state"%string, Json.JString "IL");
                ("zip"%string, Json.JString "62701");
                ("country"%string, Json.JString "US")].

Definition scenario_post (header : string) (body : Json.json) : NextRequest :=
  mkNextRequest [("Authorization"%string, header)]
    (UTF8.encode (Json.stringify body)).



(** A reading of arrays and objects as buffers that refuses them all, and a
    world whose environment is empty. *)
Definition scenario_from_object (v : Json.json) : result (list byte) :=
  Throw (TypeError "The first argument must be of type string").

Definition scenario_world_without_secret : World :=
  @mkWorld Scenario.platform (fun _ => None) [] None None [] Scenario.random.

Definition scenario_user : AuthenticatedUser := user_of Scenario.decoded.

(* ================================================================== *)
(** * Part II. Proofs *)
(* ================================================================== *)

(** ** Bytes *)

Lemma byte_to_Z_range (b : byte) : 0 <= byte_to_Z b < 256.
Proof. destruct b; vm_compute; split; congruence. Qed.

Lemma byte_of_to_Z (b : byte) : byte_of_Z (byte_to_Z b) = b.
Proof. destruct b; reflexivity. Qed.

Lemma byte_to_of_Z (z : Z) : 0 <= z < 256 -> byte_to_Z (byte_of_Z z) = z.
Proof.
  intros Hz. unfold byte_of_Z, byte_to_Z.
  rewrite Z.mod_small by assumption.
  destruct (Byte.of_N (Z.to_N z)) as [b|] eqn:E.
  - apply Byte.to_of_N in E. rewrite E. lia.
  - apply Byte.of_N_None_iff in E. lia.
Qed.

Lemma lxor_byte_range (x y : Z) :
  0 <= x < 256 -> 0 <= y < 256 -> 0 <= Z.lxor x y < 256.
Proof.
  intros Hx Hy. split.
  - apply Z.lxor_nonneg. lia.
  - destruct (Z.eq_dec (Z.lxor x y) 0) as [->|Hn]; [lia|].
    assert (0 < Z.lxor x y) by (assert (0 <= Z.lxor x y) by (apply Z.lxor_nonneg; lia); lia).
    apply Z.log2_lt_pow2 with (b := 8); [assumption|].
    eapply Z.le_lt_trans; [apply Z.log2_lxor; lia|].
    apply Z.max_lub_lt.
    + destruct (Z.eq_dec x 0) as [->|]; [reflexivity|]. apply Z.log2_lt_pow2; lia.
    + destruct (Z.eq_dec y 0) as [->|]; [reflexivity|]. apply Z.log2_lt_pow2; lia.
Qed.

Lemma byte_xor_involutive (a b : byte) : byte_xor (byte_xor a b) b = a.
Proof.
  unfold byte_xor.
  rewrite byte_to_of_Z by (apply lxor_byte_range; apply byte_to_Z_range).
  rewrite Z.lxor_assoc, Z.lxor_nilpotent, Z.lxor_0_r.
  apply byte_of_to_Z.
Qed.

(** Base64 *)
Lemma digit_spec (n : Z) :
  0 <= n < 64 ->
  Base64.unbase64 (Base64.digit n) = Some n /\ Ascii.eqb (Base64.digit n) "="%char = false.
Proof.
  intros Hn.
  assert (forall k : nat, (k < 64)%nat ->
            Base64.unbase64 (Base64.digit (Z.of_nat k)) = Some (Z.of_nat k)
            /\ Ascii.eqb (Base64.digit (Z.of_nat k)) "="%char = false) as Hk.
  { intros k Hk. do 64 (destruct k as [|k]; [vm_compute; split; reflexivity|]). lia. }
  specialize (Hk (Z.to_nat n)). rewrite Z2Nat.id in Hk by lia. apply Hk. lia.
Qed.

Lemma sextets_digit (n : Z) (r : string) :
  0 <= n < 64 ->
  Base64.sextets (String (Base64.digit n) r) = n :: Base64.sextets r.
Proof.
  intros Hn. destruct (digit_spec n Hn) as [Hu He].
  cbn [Base64.sextets]. rewrite He, Hu. reflexivity.
Qed.

Lemma list_ind3 {A : Type} (P : list A -> Prop) :
  P [] -> (forall a, P [a]) -> (forall a b, P [a; b]) ->
  (forall a b c r, P r -> P (a :: b :: c :: r)) ->
  forall l, P l.
Proof.
  intros H0 H1 H2 H3.
  fix IH 1. intros [|a [|b [|c r]]];
    [exact H0 | apply H1 | apply H2 | apply H3; apply IH].
Qed.

Ltac byte_bounds :=
  repeat match goal with
         | b : byte |- _ =>
             lazymatch goal with
             | _ : 0 <= byte_to_Z b < 256 |- _ => fail
             | _ => pose proof (byte_to_Z_range b)
             end
         end.

Lemma sextets_pad (r : string) : Base64.sextets (String "="%char r) = [].
Proof. reflexivity. Qed.

Ltac solve_byte b :=
  transitivity (byte_of_Z (byte_to_Z b));
  [f_equal; Z.div_mod_to_equations; lia | apply byte_of_to_Z].

Lemma sextets_encode (l : list byte) :
  Base64.bytes_of_sextets (Base64.sextets (Base64.encode l)) = l.
Proof.
  induction l as [|a|a b|a b c r IH] using list_ind3.
  - reflexivity.
  - byte_bounds. cbn [Base64.encode].
    do 2 (rewrite sextets_digit by (Z.div_mod_to_equations; lia)).
    rewrite sextets_pad. cbn [Base64.bytes_of_sextets].
    f_equal. solve_byte a.
  - byte_bounds. cbn [Base64.encode].
    do 3 (rewrite sextets_digit by (Z.div_mod_to_equations; lia)).
    rewrite sextets_pad. cbn [Base64.bytes_of_sextets].
    f_equal; [solve_byte a | f_equal; solve_byte b].
  - byte_bounds. cbn [Base64.encode].
    do 4 (rewrite sextets_digit by (Z.div_mod_to_equations; lia)).
    cbn [Base64.bytes_of_sextets]. rewrite IH.
    f_equal; [solve_byte a | f_equal; [solve_byte b | f_equal; solve_byte c]].
Qed.

Lemma digit_ok (n : Z) :
  plain_char (Base64.digit n) = true /\ (Json.code (Base64.digit n) <? 128) = true.
Proof.
  unfold Base64.digit. generalize (Z.to_nat n) as k. intros k.
  do 64 (destruct k as [|k]; [split; reflexivity|]). split; reflexivity.
Qed.

Lemma base64_text (l : list byte) :
  plain (Base64.encode l) = true /\ ascii_only (Base64.encode l) = true.
Proof.
  induction l as [|a|a b|a b c r [IHp IHa]] using list_ind3;
    cbn [Base64.encode plain ascii_only];
    repeat match goal with
           | |- context [plain_char (Base64.digit ?n)] =>
               rewrite (proj1 (digit_ok n))
           | |- context [Json.code (Base64.digit ?n) <? 128] =>
               rewrite (proj2 (digit_ok n))
           end;
    try (split; reflexivity).
  rewrite IHp, IHa. split; reflexivity.
Qed.

Lemma units_ascii (s : string) :
  ascii_only s = true -> Base64.units s 0 0 = s.
Proof.
  induction s as [|c r IH]; [reflexivity|].
  cbn [ascii_only Base64.units]. intros Ha.
  apply andb_true_iff in Ha. destruct Ha as [Hc Hr].
  unfold Json.code in Hc. rewrite Hc. now rewrite (IH Hr).
Qed.

Lemma base64_decode_encode (l : list byte) : Base64.decode (Base64.encode l) = l.
Proof.
  unfold Base64.decode.
  rewrite (units_ascii _ (proj2 (base64_text l))). apply sextets_encode.
Qed.

(** GCM *)
Lemma gctr_involutive (E : list byte -> list byte) (iv data : list byte) (off : nat) :
  GCM.gctr E iv off (GCM.gctr E iv off data) = data.
Proof.
  revert off. induction data as [|b r IH]; intros off; cbn [GCM.gctr].
  - reflexivity.
  - rewrite byte_xor_involutive, IH. reflexivity.
Qed.

Lemma xor_bytes_length (a b : list byte) :
  length (xor_bytes a b) = Nat.min (length a) (length b).
Proof.
  revert b. induction a as [|x a IH]; intros [|y b]; cbn; try reflexivity.
  now rewrite IH.
Qed.

Lemma be_bytes_length (n : nat) (z : Z) : length (be_bytes n z) = n.
Proof. unfold be_bytes. now rewrite length_map, length_seq. Qed.

Lemma encrypt_block_length (key block : list byte) :
  length (AES.encrypt_block key block) = 16%nat.
Proof. unfold AES.encrypt_block. now rewrite length_map, length_seq. Qed.

#[local] Opaque AES.encrypt_block GCM.gf_mul.

Lemma gcm_tag_length (key iv c : list byte) : length (gcm_tag key iv c) = 16%nat.
Proof.
  unfold gcm_tag, GCM.tag.
  now rewrite xor_bytes_length, be_bytes_length, encrypt_block_length.
Qed.

Lemma Buffer_eqb_refl (a : list byte) : Buffer_eqb a a = true.
Proof. unfold Buffer_eqb. destruct (list_eq_dec _ a a); congruence. Qed.

Lemma Buffer_eqb_eq (a b : list byte) : Buffer_eqb a b = true <-> a = b.
Proof. unfold Buffer_eqb. destruct (list_eq_dec _ a b); split; congruence. Qed.

(** Key derivation *)
Lemma sha256_length (m : list byte) : length (SHA256.sha256 m) = 32%nat.
Proof.
  unfold SHA256.sha256, SHA256.digest_bytes.
  rewrite !length_app, !be_bytes_length. reflexivity.
Qed.

#[local] Opaque SHA256.sha256.

Lemma hmac_sha256_length (k m : list byte) :
  length (hmac SHA256.sha256 SHA256.block_size k m) = 32%nat.
Proof. unfold hmac. apply sha256_length. Qed.

Lemma hkdf_sha256_length (ikm salt info : list byte) :
  length (hkdf SHA256.sha256 SHA256.block_size SHA256.digest_size ikm salt info KEY_LENGTH)
  = KEY_LENGTH.
Proof.
  unfold hkdf, hkdf_expand.
  change (Nat.div (KEY_LENGTH + SHA256.digest_size - 1) SHA256.digest_size) with 1%nat.
  cbn [hkdf_expand_blocks]. rewrite app_nil_r.
  rewrite length_firstn, hmac_sha256_length. reflexivity.
Qed.

Lemma deriveUserKey_set (env : Env) (i : string) :
  master_secret_set env ->
  exists k, deriveUserKey env i = Ok k /\ length k = 32%nat.
Proof.
  intros [secret Hs]. unfold deriveUserKey, getMasterSecret. rewrite Hs.
  cbn [bind]. unfold crypto.hkdfSync_sha256.
  change (255 * SHA256.digest_size <? KEY_LENGTH)%nat with false.
  eexists. split; [reflexivity|]. apply hkdf_sha256_length.
Qed.

Lemma deriveUserKey_length (env : Env) (i : string) (k : list byte) :
  deriveUserKey env i = Ok k -> length k = 32%nat.
Proof.
  unfold deriveUserKey, getMasterSecret.
  destruct (truthy _) as [secret|]; cbn [bind]; [|discriminate].
  unfold crypto.hkdfSync_sha256.
  change (255 * SHA256.digest_size <? KEY_LENGTH)%nat with false.
  intros [= <-]. apply hkdf_sha256_length.
Qed.

Lemma randomBytes_length (random : nat -> byte) (n : nat) :
  length (randomBytes random n) = n.
Proof. unfold randomBytes. now rewrite length_map, length_seq. Qed.

Section EncryptionFacts.
Context {T : Type} `{JSON T}.
Variable env : Env.

Lemma check_init_ok (k n : list byte) :
  length k = 32%nat -> n <> [] ->
  crypto.check_init ALGORITHM k n = Ok tt.
Proof.
  intros Hk Hn. unfold crypto.check_init.
  change (String.eqb ALGORITHM "aes-256-gcm") with true. cbn [negb].
  rewrite Hk. cbn [Nat.eqb negb].
  destruct n; [congruence|reflexivity].
Qed.

Lemma encrypt_ok (random : nat -> byte) (data : T) (i text : string) (k : list byte) :
  deriveUserKey env i = Ok k ->
  JSON_stringify data = Some text ->
  let n := randomBytes random IV_LENGTH in
  let c := gcm_stream k n (UTF8.encode text) in
  encrypt env random data i
  = Ok (mkEncryptedData (Base64.encode c) (Base64.encode n)
                        (Base64.encode (gcm_tag k n c))).
Proof.
  intros Hk Hs n c. unfold encrypt. rewrite Hk. cbn [bind].
  unfold crypto.createCipheriv.
  rewrite check_init_ok;
    [| eapply deriveUserKey_length; eassumption
     | intros E; apply (f_equal (@length byte)) in E;
       rewrite randomBytes_length in E; discriminate ].
  cbn [bind]. rewrite Hs. cbn [bind].
  unfold crypto.Cipher_update, crypto.Cipher_final, crypto.Cipher_getAuthTag.
  cbn [crypto.cipher_key crypto.cipher_iv crypto.cipher_out app length].
  rewrite app_nil_r. reflexivity.
Qed.

Lemma decrypt_authentic (r : EncryptedData) (i : string) (k : list byte) :
  deriveUserKey env i = Ok k ->
  authenticates k r ->
  decrypt env r i
  = match JSON_parse (UTF8.decode (plaintext_of k r)) with
    | Some value => Ok value
    | None => Throw decryption_error
    end.
Proof.
  intros Hk (Hn & Hl & Ht). unfold decrypt. rewrite Hk. cbn [bind].
  unfold crypto.createDecipheriv.
  rewrite check_init_ok by (try assumption; eapply deriveUserKey_length; eassumption).
  cbn [bind]. unfold crypto.Decipher_setAuthTag. cbn [crypto.decipher_tag].
  rewrite Hl. cbn [bind].
  unfold crypto.Decipher_update, crypto.Decipher_final.
  cbn [crypto.decipher_tag crypto.decipher_key crypto.decipher_iv crypto.decipher_in
       app length].
  fold (gcm_tag k (Base64.decode (iv r)) (Base64.decode (ciphertext r))).
  rewrite <- Ht, Buffer_eqb_refl. cbn [bind]. rewrite app_nil_r.
  fold (gcm_stream k (Base64.decode (iv r)) (Base64.decode (ciphertext r))).
  fold (plaintext_of k r).
  destruct (JSON_parse _); reflexivity.
Qed.

Lemma decrypt_error (r : EncryptedData) (i : string) (e : exn) :
  decrypt env r i = Throw e -> e = decryption_error.
Proof.
  unfold decrypt, try_catch.
  match goal with |- context [match ?b with Ok _ => _ | Throw _ => _ end] =>
    destruct b end; [discriminate|].
  now intros [= <-].
Qed.

Lemma decrypt_not_authentic (r : EncryptedData) (i : string) (k : list byte) :
  deriveUserKey env i = Ok k ->
  ~ authenticates k r ->
  decrypt env r i = Throw decryption_error.
Proof.
  intros Hk Hna.
  destruct (decrypt env r i) as [v|e] eqn:E.
  2:{ f_equal. eapply decrypt_error; eassumption. }
  exfalso. apply Hna. revert E.
  unfold decrypt. rewrite Hk. cbn [bind].
  unfold crypto.createDecipheriv, crypto.check_init.
  change (String.eqb ALGORITHM "aes-256-gcm") with true. cbn [negb].
  rewrite (deriveUserKey_length _ _ _ Hk). cbn [Nat.eqb negb].
  destruct (Base64.decode (iv r)) as [|n0 n] eqn:En; [discriminate|].
  cbn [length Nat.eqb bind]. unfold crypto.Decipher_setAuthTag.
  cbn [crypto.decipher_tag].
  destruct (crypto.valid_tag_length _) eqn:El; [|discriminate].
  cbn [bind]. unfold crypto.Decipher_update, crypto.Decipher_final.
  cbn [crypto.decipher_tag crypto.decipher_key crypto.decipher_iv crypto.decipher_in
       app].
  destruct (Buffer_eqb _ _) eqn:Eb; [|discriminate].
  intros _. apply Buffer_eqb_eq in Eb.
  unfold authenticates. rewrite En. repeat split; [discriminate|assumption|].
  exact Eb.
Qed.
End EncryptionFacts.

(** ** Claims on the cipher *)

Lemma encode_append (s1 s2 : string) :
  UTF8.encode (s1 ++ s2)%string = UTF8.encode s1 ++ UTF8.encode s2.
Proof.
  unfold UTF8.encode, list_byte_of_string.
  induction s1 as [|c s1 IH]; cbn [append list_ascii_of_string map app];
    [reflexivity|].
  now rewrite IH.
Qed.

Lemma hmac_key_block_zero (hash : list byte -> list byte) (bs : nat) (key : list byte) :
  (length key < bs)%nat ->
  hmac_key_block hash bs (key ++ [x00]) = hmac_key_block hash bs key.
Proof.
  intros Hl. unfold hmac_key_block.
  rewrite length_app. cbn [length].
  replace (bs <? length key + 1)%nat with false by (symmetry; apply Nat.ltb_ge; lia).
  replace (bs <? length key)%nat with false by (symmetry; apply Nat.ltb_ge; lia).
  rewrite length_app. cbn [length]. rewrite <- app_assoc. f_equal.
  replace (bs - length key)%nat with (S (bs - (length key + 1))) by lia.
  reflexivity.
Qed.

Lemma key_block_nul (i : string) :
  (length (UTF8.encode i) < 64)%nat ->
  key_block (i ++ nul) = key_block i.
Proof.
  intros Hl. unfold key_block. rewrite encode_append.
  change (UTF8.encode nul) with [x00].
  now apply hmac_key_block_zero.
Qed.

Lemma deriveUserKey_key_block (env : Env) (i1 i2 : string) :
  key_block i1 = key_block i2 ->
  deriveUserKey env i1 = deriveUserKey env i2.
Proof.
  intros Hb. unfold deriveUserKey.
  destruct (getMasterSecret env) as [secret|e]; cbn [bind]; [|reflexivity].
  unfold crypto.hkdfSync_sha256, hkdf, hkdf_extract, hmac.
  unfold key_block in Hb. rewrite Hb. reflexivity.
Qed.

(** C1. With the master secret set, [decrypt] of what [encrypt] gave for a
    JSON-serializable value, under the same identity, returns that value:
    [encrypt] succeeds and [decrypt] of its record is the value. *)
Theorem C1_decrypt_encrypt_roundtrip
        {T : Type} `{JSON T} (env : Env) (random : nat -> byte)
        (data : T) (i : string) :
  master_secret_set env ->
  serializable data ->
  exists record,
    encrypt env random data i = Ok record /\ decrypt env record i = Ok data.
Proof.
  intros Hset (text & Hs & Hw & Hp).
  destruct (deriveUserKey_set env i Hset) as (k & Hk & Hlen).
  eexists. split; [apply (encrypt_ok env random data i text k Hk Hs)|].
  rewrite (decrypt_authentic env _ i k Hk).
  - unfold plaintext_of, gcm_stream. cbn [ciphertext iv].
    rewrite !base64_decode_encode, gctr_involutive, Hw, Hp. reflexivity.
  - unfold authenticates. cbn [ciphertext iv authTag].
    rewrite !base64_decode_encode, gcm_tag_length.
    split; [|split].
    + intros E. apply (f_equal (@length byte)) in E.
      rewrite randomBytes_length in E. discriminate.
    + reflexivity.
    + rewrite <- (gcm_tag_length k (randomBytes random IV_LENGTH)
                    (gcm_stream k (randomBytes random IV_LENGTH) (UTF8.encode text))) at 1.
      symmetry. apply firstn_all.
Qed.

Lemma scenario_secret_set : master_secret_set Scenario.env.
Proof. eexists. reflexivity. Qed.

Lemma scenario_data_serializable : serializable Scenario.data.
Proof.
  exists (Json.stringify Scenario.data).
  repeat split; vm_compute; reflexivity.
Qed.

Lemma C1_witness :
  master_secret_set Scenario.env /\ serializable Scenario.data /\
  exists record,
    encrypt Scenario.env Scenario.random Scenario.data Scenario.alice = Ok record
    /\ decrypt Scenario.env record Scenario.alice = Ok Scenario.data.
Proof.
  split; [exact scenario_secret_set|].
  split; [exact scenario_data_serializable|].
  exact (C1_decrypt_encrypt_roundtrip Scenario.env Scenario.random Scenario.data
           Scenario.alice scenario_secret_set scenario_data_serializable).
Defined.

Lemma authenticates_iff (k : list byte) (r : EncryptedData) :
  authenticates k r <-> authenticatesb k r = true.
Proof.
  unfold authenticates, authenticatesb.
  rewrite !andb_true_iff, negb_true_iff, Nat.eqb_neq, Buffer_eqb_eq.
  destruct (Base64.decode (iv r)); cbn [length]; intuition (congruence || lia).
Qed.

(** C2. The source promises each user a key of their own, but "user-42"
    and "user-42" followed by U+0000 are distinct identities and
    [decrypt] under the second returns the value [encrypt] sealed under
    the first: it does not fail. *)
Lemma C2_counterexample :
  Scenario.alice <> Scenario.alice_nul /\
  exists record,
    encrypt Scenario.env Scenario.random Scenario.data Scenario.alice = Ok record
    /\ decrypt Scenario.env record Scenario.alice_nul = Ok Scenario.data.
Proof.
  split; [discriminate|].
  exists scenario_record. split; vm_compute; reflexivity.
Qed.

Lemma scenario_alice_key :
  deriveUserKey Scenario.env Scenario.alice = Ok Scenario.alice_key.
Proof. vm_compute. reflexivity. Qed.

Lemma scenario_alice_nul_key :
  deriveUserKey Scenario.env Scenario.alice_nul = Ok Scenario.alice_key.
Proof. vm_compute. reflexivity. Qed.

(** C5. The source promises each user a key of their own, but the
    distinct identities "user-42" and "user-42" followed by U+0000 derive
    the same key under the same master secret. *)
Lemma C5_counterexample :
  Scenario.alice <> Scenario.alice_nul /\
  exists k, deriveUserKey Scenario.env Scenario.alice = Ok k
            /\ deriveUserKey Scenario.env Scenario.alice_nul = Ok k.
Proof.
  split; [discriminate|].
  exists Scenario.alice_key. split; vm_compute; reflexivity.
Qed.

(** C7, at explicit inputs: a master secret of three bytes and one that is
    no base64 text are both accepted. *)
Lemma C7_counterexample :
  (exists k, deriveUserKey (Scenario.env_secret "AAAA") Scenario.alice = Ok k)
  /\ (exists k, deriveUserKey (Scenario.env_secret "not base64!") Scenario.alice = Ok k).
Proof. split; vm_compute; eexists; reflexivity. Qed.

(** C7, amended. [deriveUserKey] fails exactly when the master secret is
    unset or empty, with a plain [Error] that [encrypt] replaces by its own
    "Encryption failed"; any other value is decoded and yields a key,
    whatever its encoding or length. *)
Theorem C7_master_secret_amended
        {T : Type} `{JSON T} (env : Env) (i : string) :
  match truthy (env "ENCRYPTION_MASTER_SECRET"%string) with
  | None =>
      deriveUserKey env i
      = Throw (Error "ENCRYPTION_MASTER_SECRET environment variable is not set")
      /\ forall (random : nat -> byte) (data : T),
           encrypt env random data i = Throw (Error "Encryption failed")
  | Some secret =>
      deriveUserKey env i
      = Ok (hkdf SHA256.sha256 SHA256.block_size SHA256.digest_size
                 (Base64.decode secret) (UTF8.encode i)
                 (UTF8.encode "tenants-app-user-encryption-key") KEY_LENGTH)
  end.
Proof.
  unfold deriveUserKey, getMasterSecret.
  destruct (truthy _) as [secret|] eqn:E; cbn [bind].
  - reflexivity.
  - split; [reflexivity|]. intros random data.
    unfold encrypt, deriveUserKey, getMasterSecret. rewrite E. reflexivity.
Qed.

(** C9, at an explicit input: the tag of the record verifies for "user-42",
    its plaintext is no JSON document, and [decrypt] throws the very error
    it throws for a record whose tag does not verify. *)
Lemma C9_counterexample :
  deriveUserKey Scenario.env Scenario.alice = Ok Scenario.alice_key
  /\ authenticates Scenario.alice_key Scenario.undecodable
  /\ Json.parse (UTF8.decode (plaintext_of Scenario.alice_key Scenario.undecodable))
     = None
  /\ ~ authenticates Scenario.alice_key Scenario.forged
  /\ decrypt (T := Json.json) Scenario.env Scenario.undecodable Scenario.alice
     = decrypt (T := Json.json) Scenario.env Scenario.forged Scenario.alice.
Proof.
  split; [vm_compute; reflexivity|].
  split; [apply authenticates_iff; vm_compute; reflexivity|].
  split; [vm_compute; reflexivity|].
  split; [|vm_compute; reflexivity].
  rewrite authenticates_iff. vm_compute. discriminate.
Qed.

(** C9, amended. When the tag verifies and the plaintext is no JSON
    document, [decrypt] fails with the error it has for every failure, the
    same as for a record whose tag does not verify. *)
Theorem C9_decoding_failure_amended
        {T : Type} `{JSON T} (env : Env) (r r' : EncryptedData) (i : string)
        (k : list byte) :
  deriveUserKey env i = Ok k ->
  authenticates k r ->
  JSON_parse (UTF8.decode (plaintext_of k r)) = None ->
  ~ authenticates k r' ->
  decrypt env r i = Throw decryption_error
  /\ decrypt env r' i = Throw decryption_error.
Proof.
  intros Hk Ha Hp Hna. split.
  - rewrite (decrypt_authentic env r i k Hk Ha), Hp. reflexivity.
  - exact (decrypt_not_authentic env r' i k Hk Hna).
Qed.

Lemma scenario_undecodable_authenticates :
  authenticates Scenario.alice_key Scenario.undecodable.
Proof. apply authenticates_iff. vm_compute. reflexivity. Qed.

Lemma scenario_forged_rejected :
  ~ authenticates Scenario.alice_key Scenario.forged.
Proof. rewrite authenticates_iff. vm_compute. discriminate. Qed.

Lemma C9_witness :
  decrypt (T := Json.json) Scenario.env Scenario.undecodable Scenario.alice
  = Throw decryption_error
  /\ decrypt (T := Json.json) Scenario.env Scenario.forged Scenario.alice
     = Throw decryption_error.
Proof.
  refine (C9_decoding_failure_amended Scenario.env Scenario.undecodable
            Scenario.forged Scenario.alice Scenario.alice_key
            scenario_alice_key scenario_undecodable_authenticates _
            scenario_forged_rejected).
  vm_compute. reflexivity.
Defined.

(** ** Claims on the gate *)

Lemma split_no_space (t : string) :
  no_space t = true -> split " " t = [t].
Proof.
  induction t as [|c t IH]; cbn [no_space split]; [reflexivity|].
  intros Hn. apply andb_true_iff in Hn. destruct Hn as [Hc Ht].
  apply negb_true_iff in Hc. rewrite Hc, (IH Ht). reflexivity.
Qed.

Lemma split_segment (t rest : string) :
  no_space t = true ->
  split " " (t ++ String " " rest)%string = t :: split " " rest.
Proof.
  induction t as [|c t IH]; cbn [no_space split append]; [reflexivity|].
  intros Hn. apply andb_true_iff in Hn. destruct Hn as [Hc Ht].
  apply negb_true_iff in Hc. rewrite Hc, (IH Ht). reflexivity.
Qed.

Lemma bearer_token_single (t : string) :
  no_space t = true ->
  bearer_token ("Bearer " ++ t) = truthy (Some t).
Proof.
  intros Hn. unfold bearer_token.
  change ("Bearer " ++ t)%string with ("Bearer" ++ String " " t)%string.
  rewrite split_segment by reflexivity.
  rewrite (split_no_space t Hn). reflexivity.
Qed.

Lemma bearer_token_first (t rest : string) :
  no_space t = true ->
  bearer_token ("Bearer " ++ t ++ String " " rest) = truthy (Some t).
Proof.
  intros Hn. unfold bearer_token.
  change ("Bearer " ++ t ++ String " " rest)%string
    with ("Bearer" ++ String " " (t ++ String " " rest))%string.
  rewrite split_segment by reflexivity.
  rewrite (split_segment t rest Hn). reflexivity.
Qed.

Lemma bearer_token_double (rest : string) :
  bearer_token ("Bearer  " ++ rest) = None.
Proof.
  change ("Bearer  " ++ rest)%string
    with ("Bearer " ++ EmptyString ++ String " " rest)%string.
  now rewrite bearer_token_first.
Qed.

Lemma truthy_bearer (t : string) :
  truthy (Some ("Bearer " ++ t)%string) = Some ("Bearer " ++ t)%string.
Proof. reflexivity. Qed.

Lemma truthy_nonempty (t : string) : t <> EmptyString -> truthy (Some t) = Some t.
Proof. intros Ht. destruct t; [congruence|reflexivity]. Qed.

Section GateFacts.

Context `{Platform}.

Lemma getFirebaseAdmin_throws (w w' : World) (e : exn) :
  getFirebaseAdmin w = (Throw e, w') ->
  e = Error "Failed to initialize Firebase Admin SDK" /\ w' = w.
Proof.
  unfold getFirebaseAdmin. destruct (apps w); [|discriminate].
  destruct (initializeApp _); [discriminate|].
  intros [= <- <-]. split; reflexivity.
Qed.

(** The firebase-admin singleton touches nothing but its own state. *)
Lemma getFirebaseAdmin_frame (w w' : World) (r : result App) :
  getFirebaseAdmin w = (r, w') ->
  process_env w' = process_env w /\ db w' = db w
  /\ database w' = database w /\ random w' = random w.
Proof.
  unfold getFirebaseAdmin. destruct (apps w).
  - destruct (initializeApp _); intros [= <- <-]; repeat split.
  - intros [= <- <-]; repeat split.
Qed.

Lemma verifyAuth_spec (request : NextRequest) (w : World) :
  verifyAuth request w
  = match truthy (Headers_get "authorization" (request_headers request)) with
    | None => (Throw missing_header, w)
    | Some header =>
        match bearer_token header with
        | None => (Throw invalid_format, w)
        | Some t => verify_token t w
        end
    end.
Proof.
  unfold verifyAuth, try_catchE, bearer_token, verify_token.
  destruct (truthy (Headers_get _ _)) as [header|]; [|reflexivity].
  destruct (split " " header) as [|b [|t rest]]; cbn [nth_error]; try reflexivity.
  destruct (truthy (Some t)) as [t'|];
    [|destruct (String.eqb b "Bearer"); reflexivity].
  destruct (String.eqb b "Bearer"); cbn [negb]; [|reflexivity].
  unfold bindE, getFirebaseAdminAuth, Auth_verifyIdToken.
  destruct (getFirebaseAdmin w) as [[app|e] w'] eqn:E.
  - destruct (verifyIdToken app t' true); reflexivity.
  - apply getFirebaseAdmin_throws in E. destruct E as [-> ->]. reflexivity.
Qed.

Lemma verify_token_frame (t : string) (w w' : World) (r : result AuthenticatedUser) :
  verify_token t w = (r, w') ->
  process_env w' = process_env w /\ db w' = db w
  /\ database w' = database w /\ random w' = random w.
Proof.
  unfold verify_token, getFirebaseAdminAuth.
  destruct (getFirebaseAdmin w) as [[app|e] w1] eqn:E;
    apply getFirebaseAdmin_frame in E.
  - destruct (verifyIdToken app t true); intros [= <- <-]; exact E.
  - intros [= <- <-]; exact E.
Qed.

(** The gate leaves the environment, the database and the random source
    as they were. *)
Lemma verifyAuth_frame (request : NextRequest) (w w' : World)
      (r : result AuthenticatedUser) :
  verifyAuth request w = (r, w') ->
  process_env w' = process_env w /\ db w' = db w
  /\ database w' = database w /\ random w' = random w.
Proof.
  rewrite verifyAuth_spec.
  destruct (truthy _) as [header|]; [|intros [= <- <-]; repeat split].
  destruct (bearer_token header) as [t|]; [|intros [= <- <-]; repeat split].
  apply verify_token_frame.
Qed.

(** Whatever the gate throws is an [AuthenticationError] with status 401. *)
Lemma verifyAuth_throws (request : NextRequest) (w w' : World) (e : exn) :
  verifyAuth request w = (Throw e, w') ->
  exists message, e = AuthenticationError message 401.
Proof.
  rewrite verifyAuth_spec.
  destruct (truthy _) as [header|]; [|intros [= <- <-]; eexists; reflexivity].
  destruct (bearer_token header) as [t|]; [|intros [= <- <-]; eexists; reflexivity].
  unfold verify_token.
  destruct (getFirebaseAdminAuth w) as [[app|e0] w1].
  - destruct (verifyIdToken app t true); [discriminate|].
    intros [= <- <-]; eexists; reflexivity.
  - intros [= <- <-]; eexists; reflexivity.
Qed.

Lemma withAuth_spec
      (handler : NextRequest -> AuthenticatedUser -> Eff Response)
      (request : NextRequest) (w : World) :
  withAuth handler request w
  = match verifyAuth request w with
    | (Ok user, w') =>
        match handler request user w' with
        | (Ok response, w'') => (Ok response, w'')
        | (Throw error, w'') => (on_error error, w'')
        end
    | (Throw error, w') => (on_error error, w')
    end.
Proof.
  unfold withAuth, try_catchE, bindE.
  destruct (verifyAuth request w) as [[user|e] w'].
  - destruct (handler request user w') as [[response|e] w'']; [reflexivity|].
    destruct e; reflexivity.
  - destruct e; reflexivity.
Qed.

(** A failure of the gate is answered with the 401 made of its error. *)
Lemma withAuth_rejects
      (handler : NextRequest -> AuthenticatedUser -> Eff Response)
      (request : NextRequest) (w w' : World) (e : exn) :
  verifyAuth request w = (Throw e, w') ->
  exists message,
    e = AuthenticationError message 401
    /\ withAuth handler request w = (Ok (rejection message 401), w').
Proof.
  intros E. rewrite withAuth_spec, E.
  destruct (verifyAuth_throws request w w' e E) as [message ->].
  exists message. split; reflexivity.
Qed.

(** C4. The wrapped handler runs only after [verifyAuth] returned a
    caller, on that caller and in the world the gate left; when
    [verifyAuth] throws, the response is the 401 made of its error
    whatever the handler is, so also for [POST], and the random source
    and the database are as they were: nothing was encrypted or stored. *)
Theorem C4_handler_runs_only_when_verified
        (wrapped : NextRequest -> AuthenticatedUser -> Eff Response)
        (request : NextRequest) (w : World) :
  match verifyAuth request w with
  | (Ok user, w') =>
      withAuth wrapped request w
      = match wrapped request user w' with
        | (Ok response, w'') => (Ok response, w'')
        | (Throw error, w'') => (on_error error, w'')
        end
  | (Throw error, w') =>
      (exists message,
          error = AuthenticationError message 401
          /\ withAuth wrapped request w = (Ok (rejection message 401), w')
          /\ POST request w = (Ok (rejection message 401), w'))
      /\ random w' = random w /\ database w' = database w /\ db w' = db w
  end.
Proof.
  pose proof (withAuth_spec wrapped request w) as Hh.
  pose proof (withAuth_spec handler request w) as Hp.
  destruct (verifyAuth request w) as [[user|e] w'] eqn:E; [exact Hh|].
  destruct (verifyAuth_throws request w w' e E) as [message ->].
  destruct (verifyAuth_frame request w w' _ E) as (_ & Hdb & Hdata & Hrand).
  split; [|auto].
  exists message. split; [reflexivity|]. split; [exact Hh|exact Hp].
Qed.

(** C6. Each outcome of [verifyAuth] under its own condition, in every
    state of the process. A request without the header is rejected with
    status 401, and so is one whose header is "Bearer " with no token,
    which [request.headers.get] gives without the space at its end: both
    before firebase-admin is looked at, so also where it cannot be
    initialised. A well-formed token that the provider refuses, as
    expired or revoked or for any other reason, is rejected with status
    401. For a token the provider accepts, [verifyAuth] returns the
    caller whose uid is the subject of the token. *)
Theorem C6_gate_outcomes :
  (forall (w : World) (absent : NextRequest),
      Headers_get "authorization" (request_headers absent) = None ->
      verifyAuth absent w
      = (Throw (AuthenticationError "Missing authorization header" 401), w))
  /\ (forall (w : World) (empty : NextRequest),
         Headers_get "authorization" (request_headers empty)
         = Some (normalize "Bearer ") ->
         verifyAuth empty w
         = (Throw (AuthenticationError "Invalid authorization header format" 401),
            w))
  /\ (forall (w : World) (refused : NextRequest) (bad : string),
         Headers_get "authorization" (request_headers refused)
         = Some ("Bearer " ++ bad)%string ->
         no_space bad = true -> bad <> EmptyString ->
         (forall auth w', getFirebaseAdminAuth w = (Ok auth, w') ->
                          exists code, verifyIdToken auth bad true = inr code) ->
         exists w2,
           verifyAuth refused w
           = (Throw (AuthenticationError "Invalid or expired token" 401), w2))
  /\ (forall (w w' : World) (accepted : NextRequest) (good : string)
             (auth : App) (decoded : DecodedIdToken),
         Headers_get "authorization" (request_headers accepted)
         = Some ("Bearer " ++ good)%string ->
         no_space good = true -> good <> EmptyString ->
         getFirebaseAdminAuth w = (Ok auth, w') ->
         verifyIdToken auth good true = inl decoded ->
         exists user, verifyAuth accepted w = (Ok user, w')
                      /\ uid user = token_uid decoded
                      /\ token user = decoded).
Proof.
  split; [|split; [|split]].
  - intros w absent H0. now rewrite verifyAuth_spec, H0.
  - intros w empty H1. now rewrite verifyAuth_spec, H1.
  - intros w refused bad H2 Hbs Hbn Hbad.
    rewrite verifyAuth_spec, H2, truthy_bearer.
    rewrite (bearer_token_single bad Hbs), (truthy_nonempty bad Hbn).
    unfold verify_token.
    destruct (getFirebaseAdminAuth w) as [[app|e] w2] eqn:E.
    + destruct (Hbad app w2 eq_refl) as [code ->]. eexists; reflexivity.
    + eexists; reflexivity.
  - intros w w' accepted good auth decoded H3 Hgs Hgn Hauth Hgood.
    rewrite verifyAuth_spec, H3, truthy_bearer.
    rewrite (bearer_token_single good Hgs), (truthy_nonempty good Hgn).
    unfold verify_token. rewrite Hauth, Hgood.
    eexists. split; [reflexivity|]. split; reflexivity.
Qed.

(** C8, amended. No error of the gate reaches the generic 500. Every
    error [verifyAuth] throws, of whatever class, is an
    [AuthenticationError] with status 401 and [withAuth] answers with
    that 401; in particular, when firebase-admin cannot be initialised, a
    request with a well-formed header is answered with the 401 "Invalid
    or expired token". A response of [withAuth] with status 500 arises
    only after [verifyAuth] returned a caller: it is the response of the
    wrapped handler or made of the error it threw. When the wrapped
    handler throws something that is no [AuthenticationError], the
    answer is the generic 500. *)
Theorem C8_unexpected_errors_amended :
  (forall (wrapped : NextRequest -> AuthenticatedUser -> Eff Response)
          (request : NextRequest) (w w1 : World) (e1 : exn),
      verifyAuth request w = (Throw e1, w1) ->
      exists message,
        e1 = AuthenticationError message 401
        /\ withAuth wrapped request w = (Ok (rejection message 401), w1))
  /\ (forall (wrapped : NextRequest -> AuthenticatedUser -> Eff Response)
             (request : NextRequest) (w w' : World) (header t : string)
             (e : exn),
         truthy (Headers_get "authorization" (request_headers request))
         = Some header ->
         bearer_token header = Some t ->
         getFirebaseAdminAuth w = (Throw e, w') ->
         withAuth wrapped request w
         = (Ok (rejection "Invalid or expired token" 401), w'))
  /\ (forall (wrapped : NextRequest -> AuthenticatedUser -> Eff Response)
             (request : NextRequest) (w w3 : World) (response : Response),
         withAuth wrapped request w = (Ok response, w3) ->
         status response = 500 ->
         exists user w2,
           verifyAuth request w = (Ok user, w2)
           /\ (wrapped request user w2 = (Ok response, w3)
               \/ exists e2, wrapped request user w2 = (Throw e2, w3)
                             /\ on_error e2 = Ok response))
  /\ (forall (wrapped : NextRequest -> AuthenticatedUser -> Eff Response)
             (request : NextRequest) (w w2 w3 : World)
             (user : AuthenticatedUser) (e2 : exn),
         verifyAuth request w = (Ok user, w2) ->
         wrapped request user w2 = (Throw e2, w3) ->
         instanceof_AuthenticationError e2 = false ->
         withAuth wrapped request w = (Ok internal_failure, w3)).
Proof.
  split; [|split; [|split]].
  - intros wrapped request w w1 e1 E. now apply withAuth_rejects.
  - intros wrapped request w w' header t e Hh Ht He.
    rewrite withAuth_spec, verifyAuth_spec, Hh, Ht.
    unfold verify_token. rewrite He. reflexivity.
  - intros wrapped request w w3 response Hw Hs.
    rewrite withAuth_spec in Hw.
    destruct (verifyAuth request w) as [[user|e] w2] eqn:E.
    + exists user, w2. split; [reflexivity|].
      destruct (wrapped request user w2) as [[r|e2] w4].
      * left. exact Hw.
      * right. exists e2. injection Hw as Hr <-. split; [reflexivity|exact Hr].
    + destruct (verifyAuth_throws request w w2 e E) as [message ->].
      injection Hw as <- _. discriminate Hs.
  - intros wrapped request w w2 w3 user e2 Hv Hh He.
    rewrite withAuth_spec, Hv, Hh.
    destruct e2; try reflexivity. discriminate.
Qed.

(** C10. When the header has more parts after the scheme, [verifyAuth]
    verifies the first one and the others play no role: the outcome is
    that of the header with the first part alone. With two spaces after
    "Bearer" the first part is empty and the request is rejected with
    status 401. *)
Theorem C10_only_first_segment
        (several single double : NextRequest) (t1 others rest : string)
        (w : World) :
  no_space t1 = true -> t1 <> EmptyString ->
  Headers_get "authorization" (request_headers several)
  = Some ("Bearer " ++ t1 ++ String " " others)%string ->
  Headers_get "authorization" (request_headers single)
  = Some ("Bearer " ++ t1)%string ->
  Headers_get "authorization" (request_headers double)
  = Some ("Bearer  " ++ rest)%string ->
  verifyAuth several w = verify_token t1 w
  /\ verifyAuth several w = verifyAuth single w
  /\ verifyAuth double w
     = (Throw (AuthenticationError "Invalid authorization header format" 401), w).
Proof.
  intros Hs Hn H1 H2 H3.
  assert (Hseveral : verifyAuth several w = verify_token t1 w).
  { rewrite verifyAuth_spec, H1, truthy_bearer.
    now rewrite (bearer_token_first t1 others Hs), (truthy_nonempty t1 Hn). }
  assert (Hsingle : verifyAuth single w = verify_token t1 w).
  { rewrite verifyAuth_spec, H2, truthy_bearer.
    now rewrite (bearer_token_single t1 Hs), (truthy_nonempty t1 Hn). }
  split; [exact Hseveral|]. split; [congruence|].
  rewrite verifyAuth_spec, H3.
  rewrite (truthy_nonempty ("Bearer  " ++ rest)) by discriminate.
  now rewrite bearer_token_double.
Qed.

End GateFacts.

(** ** The gate in the concrete setting *)

Lemma scenario_init :
  getFirebaseAdminAuth Scenario.world = (Ok "tenants"%string, scenario_world_initialised).
Proof. reflexivity. Qed.

Lemma scenario_valid_token_verified :
  verifyAuth (Scenario.request "Bearer valid-token") Scenario.world
  = (Ok (user_of Scenario.decoded), scenario_world_initialised).
Proof. reflexivity. Qed.

Lemma scenario_revoked_token_rejected :
  verifyAuth (Scenario.request "Bearer revoked-token") Scenario.world
  = (Throw invalid_token, scenario_world_initialised).
Proof. reflexivity. Qed.

Lemma C6_witness :
  verifyAuth (mkNextRequest [] []) Scenario.world
  = (Throw (AuthenticationError "Missing authorization header" 401), Scenario.world)
  /\ verifyAuth (Scenario.request "Bearer ") Scenario.world
     = (Throw (AuthenticationError "Invalid authorization header format" 401),
        Scenario.world)
  /\ (exists w2, verifyAuth (Scenario.request "Bearer revoked-token") Scenario.world
                 = (Throw (AuthenticationError "Invalid or expired token" 401), w2))
  /\ (exists user, verifyAuth (Scenario.request "Bearer valid-token") Scenario.world
                   = (Ok user, scenario_world_initialised)
                   /\ uid user = token_uid Scenario.decoded
                   /\ token user = Scenario.decoded).
Proof.
  destruct (@C6_gate_outcomes Scenario.platform) as (H0 & H1 & H2 & H3).
  split; [|split; [|split]].
  - apply H0. reflexivity.
  - apply H1. reflexivity.
  - apply (H2 _ _ "revoked-token"%string);
      [reflexivity | reflexivity | discriminate |].
    intros auth w' _. eexists. reflexivity.
  - apply (H3 _ _ _ "valid-token"%string "tenants"%string);
      [reflexivity | reflexivity | discriminate | exact scenario_init
       | reflexivity].
Defined.

(** C8, at an explicit input: without the credentials of firebase-admin
    its initialisation throws, which is neither a missing or malformed
    credential nor a verdict on the token, and the answer of [POST] is the
    401 rejection, not a 500. *)
Lemma C8_counterexample :
  getFirebaseAdminAuth Scenario.world_without_firebase
  = (Throw (Error "Failed to initialize Firebase Admin SDK"),
     Scenario.world_without_firebase)
  /\ POST (Scenario.request "Bearer valid-token") Scenario.world_without_firebase
     = (Ok (rejection "Invalid or expired token" 401),
        Scenario.world_without_firebase)
  /\ status (rejection "Invalid or expired token" 401) <> 500.
Proof.
  split; [reflexivity|]. split; [reflexivity|]. discriminate.
Qed.

Lemma C8_witness :
  (exists message,
      invalid_token = AuthenticationError message 401
      /\ withAuth scenario_failing_handler
                  (Scenario.request "Bearer revoked-token") Scenario.world
         = (Ok (rejection message 401), scenario_world_initialised))
  /\ withAuth scenario_failing_handler
              (Scenario.request "Bearer valid-token")
              Scenario.world_without_firebase
     = (Ok (rejection "Invalid or expired token" 401),
        Scenario.world_without_firebase)
  /\ (exists user w2,
         verifyAuth (Scenario.request "Bearer valid-token") Scenario.world
         = (Ok user, w2)
         /\ (scenario_failing_handler (Scenario.request "Bearer valid-token")
                                      user w2
             = (Ok internal_failure, scenario_world_initialised)
             \/ exists e2,
                 scenario_failing_handler (Scenario.request "Bearer valid-token")
                                          user w2
                 = (Throw e2, scenario_world_initialised)
                 /\ on_error e2 = Ok internal_failure))
  /\ withAuth scenario_failing_handler
              (Scenario.request "Bearer valid-token") Scenario.world
     = (Ok internal_failure, scenario_world_initialised).
Proof.
  destruct (@C8_unexpected_errors_amended Scenario.platform)
    as (H1 & H2 & H3 & H4).
  split; [|split; [|split]].
  - apply H1. exact scenario_revoked_token_rejected.
  - apply (H2 _ _ _ _ "Bearer valid-token"%string "valid-token"%string
              (Error "Failed to initialize Firebase Admin SDK"));
      reflexivity.
  - apply H3; reflexivity.
  - apply (H4 _ _ _ scenario_world_initialised _ (user_of Scenario.decoded)
              (TypeError "Cannot read properties of undefined"));
      reflexivity.
Defined.

Lemma C10_witness :
  verifyAuth (Scenario.request "Bearer valid-token extra words") Scenario.world
  = verify_token "valid-token" Scenario.world
  /\ verifyAuth (Scenario.request "Bearer valid-token extra words") Scenario.world
     = verifyAuth (Scenario.request "Bearer valid-token") Scenario.world
  /\ verifyAuth (Scenario.request "Bearer  valid-token") Scenario.world
     = (Throw (AuthenticationError "Invalid authorization header format" 401),
        Scenario.world).
Proof.
  refine (C10_only_first_segment
            (Scenario.request "Bearer valid-token extra words")
            (Scenario.request "Bearer valid-token")
            (Scenario.request "Bearer  valid-token")
            "valid-token" "extra words" "valid-token" Scenario.world
            eq_refl _ eq_refl eq_refl eq_refl).
  discriminate.
Defined.

(** ** Further properties of lib/encryption.ts *)

Section EncryptionProperties.

Context {T : Type} `{JSON T}.

Variable env : Env.

Lemma randomBytes_nonempty (random : nat -> byte) :
  randomBytes random IV_LENGTH <> [].
Proof.
  intros E. apply (f_equal (@length byte)) in E.
  rewrite randomBytes_length in E. discriminate.
Qed.

Lemma seal_authenticates (k n p : list byte) :
  n <> [] -> authenticates k (seal k n p).
Proof.
  intros Hn. unfold authenticates, seal. cbn [ciphertext iv authTag].
  rewrite !base64_decode_encode, gcm_tag_length.
  split; [exact Hn|]. split; [reflexivity|].
  rewrite <- (gcm_tag_length k n (gcm_stream k n p)) at 1.
  symmetry. apply firstn_all.
Qed.

Lemma seal_plaintext (k n p : list byte) : plaintext_of k (seal k n p) = p.
Proof.
  unfold plaintext_of, seal, gcm_stream. cbn [ciphertext iv].
  rewrite !base64_decode_encode. apply gctr_involutive.
Qed.

(** What a successful [encrypt] went through. *)
Lemma encrypt_inv (random : nat -> byte) (data : T) (i : string)
      (r : EncryptedData) :
  encrypt env random data i = Ok r ->
  exists k text,
    deriveUserKey env i = Ok k /\ JSON_stringify data = Some text
    /\ r = seal k (randomBytes random IV_LENGTH) (UTF8.encode text).
Proof.
  intros E.
  destruct (deriveUserKey env i) as [k|e] eqn:Hk.
  2:{ unfold encrypt in E. rewrite Hk in E. discriminate. }
  destruct (JSON_stringify data) as [text|] eqn:Hs.
  - rewrite (encrypt_ok env random data i text k Hk Hs) in E.
    injection E as <-. exists k, text. auto.
  - unfold encrypt in E. rewrite Hk in E. cbn [bind] in E.
    unfold crypto.createCipheriv in E.
    rewrite check_init_ok in E
      by (try apply randomBytes_nonempty; eapply deriveUserKey_length; eassumption).
    cbn [bind] in E. rewrite Hs in E. discriminate.
Qed.

(** X2. [encrypt] succeeds exactly when the master secret is set and
    [JSON.stringify] gives a text, and then the record is the sealed text;
    in every other case it throws its one error, which names no cause. *)
Theorem encrypt_succeeds_iff (random : nat -> byte) (data : T) (i : string) :
  ((exists r, encrypt env random data i = Ok r)
   <-> master_secret_set env /\ JSON_stringify data <> None)
  /\ (forall e, encrypt env random data i = Throw e ->
                e = Error "Encryption failed").
Proof.
  split; [split|].
  - intros [r E]. destruct (encrypt_inv random data i r E) as (k & text & Hk & Hs & _).
    split; [|congruence].
    unfold deriveUserKey, getMasterSecret in Hk. unfold master_secret_set.
    destruct (truthy _) as [secret|]; [eexists; reflexivity|discriminate].
  - intros [Hset Hs]. destruct (deriveUserKey_set env i Hset) as (k & Hk & _).
    destruct (JSON_stringify data) as [text|] eqn:Es; [|congruence].
    eexists. exact (encrypt_ok env random data i text k Hk Es).
  - intros e. unfold encrypt, try_catch.
    match goal with |- context [match ?b with Ok _ => _ | Throw _ => _ end] =>
      destruct b end; [discriminate|].
    now intros [= <-].
Qed.

Lemma gctr_length (E : list byte -> list byte) (n data : list byte) (off : nat) :
  length (GCM.gctr E n off data) = length data.
Proof.
  revert off. induction data as [|b r IH]; intros off; cbn [GCM.gctr length];
    [reflexivity|]. now rewrite IH.
Qed.

(** X3. The record of a successful [encrypt] holds the sixteen random bytes
    drawn as IV, a tag of sixteen bytes and a ciphertext exactly as long as
    the UTF-8 text of the value. *)
Theorem encrypt_record_shape (random : nat -> byte) (data : T) (i text : string)
        (r : EncryptedData) :
  encrypt env random data i = Ok r ->
  JSON_stringify data = Some text ->
  Base64.decode (iv r) = randomBytes random IV_LENGTH
  /\ length (Base64.decode (iv r)) = IV_LENGTH
  /\ length (Base64.decode (authTag r)) = AUTH_TAG_LENGTH
  /\ length (Base64.decode (ciphertext r)) = length (UTF8.encode text).
Proof.
  intros E Hs.
  destruct (encrypt_inv random data i r E) as (k & text' & Hk & Hs' & ->).
  assert (text' = text) by congruence. subst text'.
  unfold seal. cbn [ciphertext iv authTag].
  rewrite !base64_decode_encode, randomBytes_length, gcm_tag_length.
  unfold gcm_stream. rewrite gctr_length. auto.
Qed.


(** X5. Changing the tag of a record [encrypt] produced into any other sixteen
    bytes makes [decrypt] fail. *)
Theorem decrypt_rejects_other_tag
        (random : nat -> byte) (data : T) (i : string) (r : EncryptedData)
        (t : list byte) :
  encrypt env random data i = Ok r ->
  length t = AUTH_TAG_LENGTH ->
  t <> Base64.decode (authTag r) ->
  decrypt env (with_tag r t) i = Throw decryption_error.
Proof.
  intros E Hl Hd.
  destruct (encrypt_inv random data i r E) as (k & text & Hk & Hs & ->).
  apply (decrypt_not_authentic env _ i k Hk).
  unfold authenticates, with_tag, seal in *. cbn [ciphertext iv authTag] in *.
  rewrite !base64_decode_encode in *. rewrite Hl.
  intros (_ & _ & Ht). apply Hd. rewrite Ht.
  change AUTH_TAG_LENGTH with 16%nat.
  rewrite <- (gcm_tag_length k (randomBytes random IV_LENGTH)
                (gcm_stream k (randomBytes random IV_LENGTH) (UTF8.encode text))).
  apply firstn_all.
Qed.

(** X6. No tag length is asked for: [decrypt] accepts the record with its tag
    cut down to the first 4, 8 or 12 to 15 bytes and returns the value. *)
Theorem decrypt_accepts_truncated_tag
        (random : nat -> byte) (data : T) (i : string) (r : EncryptedData)
        (n : nat) :
  encrypt env random data i = Ok r ->
  serializable data ->
  crypto.valid_tag_length n = true ->
  decrypt env (with_tag r (firstn n (Base64.decode (authTag r)))) i = Ok data.
Proof.
  intros E (text & Hs & Hw & Hp) Hn.
  destruct (encrypt_inv random data i r E) as (k & text' & Hk & Hs' & ->).
  assert (text' = text) by congruence. subst text'.
  assert (Hle : (n <= 16)%nat).
  { unfold crypto.valid_tag_length in Hn.
    repeat (apply orb_true_iff in Hn; destruct Hn as [Hn|Hn]);
      try (apply Nat.eqb_eq in Hn; lia).
    apply andb_true_iff in Hn. destruct Hn as [_ Hn]. apply Nat.leb_le in Hn. lia. }
  set (nonce := randomBytes random IV_LENGTH).
  set (c := gcm_stream k nonce (UTF8.encode text)).
  assert (Hlen : length (firstn n (gcm_tag k nonce c)) = n).
  { rewrite length_firstn, gcm_tag_length. lia. }
  rewrite (decrypt_authentic env _ i k Hk).
  - unfold plaintext_of, with_tag, seal. cbn [ciphertext iv].
    rewrite !base64_decode_encode. fold nonce.
    unfold gcm_stream. now rewrite gctr_involutive, Hw, Hp.
  - unfold authenticates, with_tag, seal.
    cbn [ciphertext iv authTag]. rewrite !base64_decode_encode.
    fold nonce. fold c. rewrite Hlen. repeat split.
    + apply randomBytes_nonempty.
    + exact Hn.
Qed.

(** X7. An identity of fewer than 64 bytes and the same identity followed by
    U+0000 have the same key, so each decrypts what was encrypted for the
    other. *)
Theorem trailing_nul_same_key (i : string) (r : EncryptedData) :
  (length (UTF8.encode i) < 64)%nat ->
  deriveUserKey env (i ++ nul) = deriveUserKey env i
  /\ decrypt env r (i ++ nul) = decrypt env r i.
Proof.
  intros Hl.
  assert (Hk : deriveUserKey env (i ++ nul) = deriveUserKey env i)
    by (apply deriveUserKey_key_block, key_block_nul, Hl).
  split; [exact Hk|]. unfold decrypt. rewrite Hk. reflexivity.
Qed.

(** X8. The derived key has 32 bytes, whatever the master secret and the
    identity are. *)
Theorem derived_key_length (i : string) (k : list byte) :
  deriveUserKey env i = Ok k -> length k = KEY_LENGTH.
Proof. apply deriveUserKey_length. Qed.

End EncryptionProperties.

(** ** The stored field: [encryptField] and [decryptField] *)

Lemma byte_code (c : ascii) : byte_to_Z (byte_of_ascii c) = Json.code c.
Proof. destruct c as [[] [] [] [] [] [] [] []]; reflexivity. Qed.

Lemma decode_encode_ascii (s : string) :
  ascii_only s = true -> UTF8.decode (UTF8.encode s) = s.
Proof.
  intros Ha. unfold UTF8.decode, UTF8.encode.
  rewrite <- (string_of_list_byte_of_string s) at 2. f_equal.
  unfold list_byte_of_string.
  induction s as [|c r IH]; [reflexivity|].
  cbn [ascii_only] in Ha. apply andb_true_iff in Ha. destruct Ha as [Hc Hr].
  cbn [list_ascii_of_string map UTF8.scrub]. unfold UTF8.classify.
  rewrite byte_code.
  replace (Json.code c <=? 127) with true by (symmetry; apply Z.leb_le; apply Z.ltb_lt in Hc; lia).
  cbn [app]. now rewrite (IH Hr).
Qed.

Lemma plain_app (a b : string) :
  plain (a ++ b) = plain a && plain b.
Proof.
  induction a as [|c a IH]; cbn [append plain]; [reflexivity|].
  now rewrite IH, andb_assoc.
Qed.

Lemma ascii_only_app (a b : string) :
  ascii_only (a ++ b) = ascii_only a && ascii_only b.
Proof.
  induction a as [|c a IH]; cbn [append ascii_only]; [reflexivity|].
  now rewrite IH, andb_assoc.
Qed.

Lemma escape_plain (s : string) : plain s = true -> Json.escape s = s.
Proof.
  induction s as [|c r IH]; cbn [plain Json.escape]; [reflexivity|].
  intros Hp. apply andb_true_iff in Hp. destruct Hp as [Hc Hr].
  unfold plain_char in Hc.
  apply andb_true_iff in Hc. destruct Hc as [Hc H92].
  apply andb_true_iff in Hc. destruct Hc as [H32 H34].
  apply negb_true_iff in H92, H34. apply Z.leb_le in H32.
  rewrite H34, H92.
  repeat match goal with
         | |- context [Json.code c =? ?k] =>
             replace (Json.code c =? k) with false by (symmetry; apply Z.eqb_neq; lia)
         end.
  replace (Json.code c <? 32) with false by (symmetry; apply Z.ltb_ge; lia).
  cbn [append]. now rewrite (IH Hr).
Qed.

Lemma string_body_plain (s rest : string) :
  plain s = true ->
  Json.string_body (s ++ String Json.dquote rest) None = Some (s, rest).
Proof.
  induction s as [|c r IH]; cbn [plain append]; [reflexivity|].
  intros Hp. apply andb_true_iff in Hp. destruct Hp as [Hc Hr].
  unfold plain_char in Hc.
  apply andb_true_iff in Hc. destruct Hc as [Hc H92].
  apply andb_true_iff in Hc. destruct Hc as [H32 H34].
  apply negb_true_iff in H92, H34. apply Z.leb_le in H32.
  cbn [Json.string_body]. rewrite H34, H92.
  replace (Json.code c <? 32) with false by (symmetry; apply Z.ltb_ge; lia).
  rewrite (IH Hr). reflexivity.
Qed.

Lemma skip_ws_dquote (r : string) :
  Json.skip_ws (String Json.dquote r) = String Json.dquote r.
Proof. reflexivity. Qed.

Lemma skip_ws_colon (r : string) :
  Json.skip_ws (String ":" r) = String ":" r.
Proof. reflexivity. Qed.

Lemma skip_ws_brace (r : string) :
  Json.skip_ws (String "{" r) = String "{" r.
Proof. reflexivity. Qed.

Lemma value_string (f : nat) (s rest : string) :
  plain s = true ->
  Json.value (S f) (String Json.dquote (s ++ String Json.dquote rest))
  = Some (Json.JString s, rest).
Proof.
  intros Hp. cbn [Json.value]. rewrite skip_ws_dquote.
  change (Json.code Json.dquote =? 110) with false.
  change (Json.code Json.dquote =? 116) with false.
  change (Json.code Json.dquote =? 102) with false.
  change (Json.code Json.dquote =? 34) with true.
  cbv beta iota. now rewrite (string_body_plain s rest Hp).
Qed.

(** One member of an object whose name and value are plain strings,
    followed by a comma. *)
Lemma members_next (f : nat) (k s rest : string) (acc : list (string * Json.json)) :
  plain k = true -> plain s = true ->
  Json.members (S (S f)) (member_text k s (String "," rest)) acc
  = Json.members (S f) rest (Json.set_member k (Json.JString s) acc).
Proof.
  intros Hk Hs. unfold member_text. cbn [Json.members]. rewrite skip_ws_dquote.
  change (negb (Json.code Json.dquote =? 34)) with false. cbv beta iota.
  rewrite (string_body_plain k _ Hk).
  rewrite skip_ws_colon. rewrite (value_string f s _ Hs). reflexivity.
Qed.

(** The last member, followed by the closing brace. *)
Lemma members_last (f : nat) (k s rest : string) (acc : list (string * Json.json)) :
  plain k = true -> plain s = true ->
  Json.members (S (S f)) (member_text k s (String "}" rest)) acc
  = Some (Json.JObject (Json.set_member k (Json.JString s) acc), rest).
Proof.
  intros Hk Hs. unfold member_text. cbn [Json.members]. rewrite skip_ws_dquote.
  change (negb (Json.code Json.dquote =? 34)) with false. cbv beta iota.
  rewrite (string_body_plain k _ Hk).
  rewrite skip_ws_colon. rewrite (value_string f s _ Hs). reflexivity.
Qed.

Lemma append_assoc (a b c : string) : ((a ++ b) ++ c = a ++ (b ++ c))%string.
Proof. induction a as [|x a IH]; cbn [append]; [reflexivity|]. now rewrite IH. Qed.

Lemma append_cons (x : ascii) (a b : string) :
  (String x a ++ b = String x (a ++ b))%string.
Proof. reflexivity. Qed.

Lemma append_nil_l (b : string) : (EmptyString ++ b = b)%string.
Proof. reflexivity. Qed.

Lemma stringify_record_object (r : EncryptedData) :
  plain (ciphertext r) = true -> plain (iv r) = true -> plain (authTag r) = true ->
  Json.stringify (record_object r)
  = String "{"
      (member_text "ciphertext" (ciphertext r) (String ","
        (member_text "iv" (iv r) (String ","
          (member_text "authTag" (authTag r) (String "}" EmptyString)))))).
Proof.
  intros Hc Hn Ht. unfold record_object, member_text. cbn [Json.stringify].
  unfold Json.quote.
  rewrite (escape_plain _ Hc), (escape_plain _ Hn), (escape_plain _ Ht).
  change (Json.escape "ciphertext") with "ciphertext"%string.
  change (Json.escape "iv") with "iv"%string.
  change (Json.escape "authTag") with "authTag"%string.
  repeat (rewrite ?append_assoc, ?append_cons, ?append_nil_l).
  reflexivity.
Qed.

Lemma parse_record_object (r : EncryptedData) :
  plain (ciphertext r) = true -> plain (iv r) = true -> plain (authTag r) = true ->
  Json.parse (Json.stringify (record_object r)) = Some (record_object r).
Proof.
  intros Hc Hn Ht. unfold Json.parse.
  rewrite (stringify_record_object r Hc Hn Ht).
  match goal with |- context [Json.value ?fuel ?s] =>
    assert (Hf : exists f, fuel = S (S (S (S (S f)))))
  end.
  { unfold member_text. cbn [String.length append]. eexists (_ : nat).
    rewrite Nat.mul_succ_r. cbn [Nat.add]. reflexivity. }
  destruct Hf as [f ->].
  cbn [Json.value].
  rewrite skip_ws_brace.
  change (Json.code "{" =? 110) with false.
  change (Json.code "{" =? 116) with false.
  change (Json.code "{" =? 102) with false.
  change (Json.code "{" =? 34) with false.
  change (Json.code "{" =? 91) with false.
  change (Json.code "{" =? 123) with true.
  cbv beta iota.
  unfold member_text at 1. rewrite skip_ws_dquote. fold (member_text "ciphertext" (ciphertext r)
    (String "," (member_text "iv" (iv r) (String ","
          (member_text "authTag" (authTag r) (String "}" EmptyString)))))).
  rewrite (members_next _ "ciphertext" (ciphertext r)) by (try assumption; reflexivity).
  rewrite (members_next _ "iv" (iv r)) by (try assumption; reflexivity).
  rewrite (members_last _ "authTag" (authTag r)) by (try assumption; reflexivity).
  reflexivity.
Qed.

Section StorageProperties.

Context {T : Type} `{JSON T}.

Variable env : Env.
Variable from_object : Json.json -> result (list byte).

(** On the object of a record, [decrypt_parsed] is [decrypt]. *)
Lemma decrypt_parsed_record (r : EncryptedData) (i : string) :
  decrypt_parsed env from_object (record_object r) i = decrypt env r i.
Proof.
  unfold decrypt_parsed, decrypt.
  destruct (deriveUserKey env i) as [k|e]; [|reflexivity].
  reflexivity.
Qed.

Lemma seal_plain (k n p : list byte) :
  plain (ciphertext (seal k n p)) = true /\ plain (iv (seal k n p)) = true
  /\ plain (authTag (seal k n p)) = true
  /\ ascii_only (Json.stringify (record_object (seal k n p))) = true.
Proof.
  unfold seal. cbn [ciphertext iv authTag].
  set (c := Base64.encode _). set (v := Base64.encode n). set (t := Base64.encode _).
  destruct (base64_text (gcm_stream k n p)) as [Hc Hc'].
  destruct (base64_text n) as [Hn Hn'].
  destruct (base64_text (gcm_tag k n (gcm_stream k n p))) as [Ht Ht'].
  fold c in Hc, Hc'. fold v in Hn, Hn'. fold t in Ht, Ht'.
  repeat split; try assumption.
  rewrite (stringify_record_object (mkEncryptedData c v t) Hc Hn Ht).
  unfold member_text. cbn [ciphertext iv authTag ascii_only append].
  rewrite !ascii_only_app. cbn [ascii_only append].
  rewrite !ascii_only_app. cbn [ascii_only append].
  rewrite !ascii_only_app. cbn [ascii_only append].
  now rewrite Hc', Hn', Ht'.
Qed.

Lemma stored_field_roundtrip
      (random : nat -> byte) (data : T) (i : string) :
  master_secret_set env ->
  serializable data ->
  exists blob,
    encryptField env random data i = Ok blob
    /\ decryptField env from_object blob i = Ok data.
Proof.
  intros Hset (text & Hs & Hw & Hp).
  destruct (deriveUserKey_set env i Hset) as (k & Hk & _).
  pose proof (encrypt_ok env random data i text k Hk Hs) as He. cbv zeta in He.
  fold (seal k (randomBytes random IV_LENGTH) (UTF8.encode text)) in He.
  set (r := seal k (randomBytes random IV_LENGTH) (UTF8.encode text)) in *.
  destruct (seal_plain k (randomBytes random IV_LENGTH) (UTF8.encode text))
    as (Hc & Hn & Ht & Ha). fold r in Hc, Hn, Ht, Ha.
  exists (Base64.encode (UTF8.encode (Json.stringify (record_object r)))).
  split.
  - unfold encryptField. rewrite He. reflexivity.
  - unfold decryptField.
    rewrite base64_decode_encode, (decode_encode_ascii _ Ha).
    rewrite (parse_record_object r Hc Hn Ht), decrypt_parsed_record.
    rewrite (decrypt_authentic env r i k Hk).
    + unfold r. now rewrite seal_plaintext, Hw, Hp.
    + apply seal_authenticates.
      intros E. apply (f_equal (@length byte)) in E.
      rewrite randomBytes_length in E. discriminate.
Qed.

(** X1. What [encryptField] stored, [decryptField] reads back: with the master
    secret set, the blob made of a JSON-serializable value decrypts to that
    value under the same identity. *)
Theorem decryptField_encryptField
        (random : nat -> byte) (data : T) (i : string) :
  master_secret_set env ->
  serializable data ->
  exists blob,
    encryptField env random data i = Ok blob
    /\ decryptField env from_object blob i = Ok data.
Proof. apply stored_field_roundtrip. Qed.

(** X9. [decryptField] throws the error of [decrypt] or, for a blob that holds
    no JSON document, the [SyntaxError] of [JSON.parse] itself. *)
Theorem decryptField_errors (blob i : string) (e : exn) :
  decryptField env from_object blob i = Throw e ->
  e = decryption_error \/ exists message, e = SyntaxError message.
Proof.
  unfold decryptField.
  destruct (Json.parse _) as [v|];
    [|intros [= <-]; right; eexists; reflexivity].
  unfold decrypt_parsed, try_catch.
  match goal with |- context [match ?b with Ok _ => _ | Throw _ => _ end] =>
    destruct b end; [discriminate|].
  intros [= <-]. now left.
Qed.

End StorageProperties.

(** ** Further properties of the gate, the singletons and the route *)

Lemma unescape_step (c d : ascii) (r : string) :
  unescape_newlines (String c (String d r))
  = if Ascii.eqb c "\" && Ascii.eqb d "n"
    then String "010" (unescape_newlines r)
    else String c (unescape_newlines (String d r)).
Proof.
  destruct c as [[] [] [] [] [] [] [] []]; try reflexivity.
  destruct d as [[] [] [] [] [] [] [] []]; reflexivity.
Qed.

Lemma no_escaped_newline_step (c d : ascii) (r : string) :
  no_escaped_newline (String c (String d r))
  = negb (Ascii.eqb c "\" && Ascii.eqb d "n")
    && no_escaped_newline (String d r).
Proof.
  destruct c as [[] [] [] [] [] [] [] []]; try reflexivity.
  destruct d as [[] [] [] [] [] [] [] []]; reflexivity.
Qed.

Lemma string_ind2 (P : string -> Prop) :
  P EmptyString -> (forall c, P (String c EmptyString)) ->
  (forall c d r, P r -> P (String d r) -> P (String c (String d r))) ->
  forall s, P s.
Proof.
  intros H0 H1 H2.
  assert (H : forall s, P s /\ forall c, P (String c s)).
  { induction s as [|d r [IHr IHc]].
    - split; [exact H0|exact H1].
    - split; [apply IHc|]. intros c. apply H2; [exact IHr|apply IHc]. }
  intros s. apply H.
Qed.

(** The first character of what [unescape_newlines] gives is a line feed
    or the first character of its argument. *)
Lemma unescape_head (d : ascii) (r : string) :
  exists h t, unescape_newlines (String d r) = String h t
              /\ (h = "010"%char \/ h = d).
Proof.
  destruct r as [|e r].
  - exists d, EmptyString. split; [|now right].
    destruct d as [[] [] [] [] [] [] [] []]; reflexivity.
  - rewrite unescape_step.
    destruct (Ascii.eqb d "\" && Ascii.eqb e "n"); eexists; eexists; split;
      try reflexivity; auto.
Qed.

(** X10. lib/firebase-admin.ts: after the replacement no backslash followed by n
    is left in the private key. *)
Theorem unescape_newlines_complete (s : string) :
  no_escaped_newline (unescape_newlines s) = true.
Proof.
  induction s as [|c|c d r IHr IHd] using string_ind2.
  - reflexivity.
  - destruct c as [[] [] [] [] [] [] [] []]; reflexivity.
  - rewrite unescape_step.
    destruct (Ascii.eqb c "\" && Ascii.eqb d "n") eqn:E.
    + destruct (unescape_newlines r) as [|h t] eqn:Er; [reflexivity|].
      rewrite no_escaped_newline_step, IHr. reflexivity.
    + destruct (unescape_head d r) as (h & t & Eh & Hh).
      rewrite Eh in *. rewrite no_escaped_newline_step, IHd, andb_true_r.
      apply negb_true_iff.
      destruct (Ascii.eqb c "\") eqn:Ec; [|reflexivity]. cbn [andb] in *.
      destruct Hh as [-> | ->]; [reflexivity|exact E].
Qed.

Section ServerProperties.

Context `{Platform}.



(** lib/database.ts: without a client yet, a missing or empty URL is
    reported before the token is looked at, and a missing or empty token
    before any client is made. *)
Lemma getDatabase_missing_configuration (w : World) :
  db w = None ->
  (truthy (process_env w "TURSO_DATABASE_URL"%string) = None ->
   getDatabase w
   = (Throw (Error "TURSO_DATABASE_URL environment variable is not set"), w))
  /\ (truthy (process_env w "TURSO_DATABASE_URL"%string) <> None ->
      truthy (process_env w "TURSO_AUTH_TOKEN"%string) = None ->
      getDatabase w
      = (Throw (Error "TURSO_AUTH_TOKEN environment variable is not set"), w)).
Proof.
  intros Hd. unfold getDatabase. rewrite Hd. split.
  - intros ->. reflexivity.
  - intros Hu Ht. destruct (truthy (process_env w "TURSO_DATABASE_URL"%string));
      [|congruence]. rewrite Ht. reflexivity.
Qed.

(** X13. lib/auth-middleware.ts: [withAuth] throws in one case only: the
    gate let the caller through, the wrapped handler threw an
    [AuthenticationError], and [new Response] refused its status, which
    is then outside 200..599 or one of 204, 205 and 304; what [withAuth]
    throws is the error of the constructor. *)
Theorem withAuth_throws_only_for_refused_status
        (wrapped : NextRequest -> AuthenticatedUser -> Eff Response)
        (request : NextRequest) (w w' : World) (e : exn) :
  withAuth wrapped request w = (Throw e, w') ->
  exists user w1 message statusCode,
    verifyAuth request w = (Ok user, w1)
    /\ wrapped request user w1
       = (Throw (AuthenticationError message statusCode), w')
    /\ new_Response
         (Json.stringify (Json.JObject [("error"%string, Json.JString message)]))
         statusCode json_headers
       = Throw e
    /\ (statusCode mod 65536 < 200 \/ 599 < statusCode mod 65536
        \/ In (statusCode mod 65536) [204; 205; 304]).
Proof.
  rewrite withAuth_spec.
  destruct (verifyAuth request w) as [[user|e0] w1] eqn:E.
  - destruct (wrapped request user w1) as [[response|e0] w2] eqn:Ew;
      [discriminate|].
    destruct e0 as [| | | |message statusCode| | |]; try discriminate.
    unfold on_error. intros Hw.
    assert (Hr : new_Response
                   (Json.stringify
                      (Json.JObject [("error"%string, Json.JString message)]))
                   statusCode json_headers = Throw e)
      by (injection Hw as Hr _; exact Hr).
    assert (Hw2 : w2 = w') by (injection Hw as _ Hw2; exact Hw2).
    subst w2. exists user, w1, message, statusCode.
    split; [reflexivity|]. split; [exact Ew|]. split; [exact Hr|].
    unfold new_Response in Hr.
    destruct ((statusCode mod 65536 <? 200) || (599 <? statusCode mod 65536))
      eqn:Eb.
    + apply orb_true_iff in Eb. destruct Eb as [Eb|Eb]; apply Z.ltb_lt in Eb; auto.
    + destruct (null_body_status (statusCode mod 65536)) eqn:En; [|discriminate].
      apply orb_false_iff in Eb. destruct Eb as [E1 E2].
      apply Z.ltb_ge in E1.
      right. right. unfold null_body_status in En.
      repeat (apply orb_true_iff in En; destruct En as [En|En]);
        apply Z.eqb_eq in En; cbn [In]; lia.
  - destruct (verifyAuth_throws request w w1 e0 E) as [message ->].
    discriminate.
Qed.

(** X14. lib/auth-middleware.ts: the gate changes nothing but the state of
    firebase-admin: environment, database client, database and random
    source are as before, whatever the outcome. *)
Theorem verifyAuth_touches_only_firebase
        (request : NextRequest) (w w' : World) (r : result AuthenticatedUser) :
  verifyAuth request w = (r, w') ->
  process_env w' = process_env w /\ db w' = db w
  /\ database w' = database w /\ random w' = random w.
Proof. apply verifyAuth_frame. Qed.

(** X15. lib/auth-middleware.ts: a header whose scheme is anything but exactly
    "Bearer", or that has no space at all, is rejected with status 401 and
    firebase-admin is not even initialised. *)
Theorem verifyAuth_scheme_is_exact
        (request : NextRequest) (header scheme rest : string) (w : World) :
  Headers_get "authorization" (request_headers request) = Some header ->
  header <> EmptyString ->
  (header = (scheme ++ String " " rest)%string /\ no_space scheme = true
   /\ scheme <> "Bearer"%string)
  \/ no_space header = true ->
  verifyAuth request w
  = (Throw (AuthenticationError "Invalid authorization header format" 401), w).
Proof.
  intros Hh Hne Hcase. rewrite verifyAuth_spec, Hh, (truthy_nonempty header Hne).
  assert (Hb : bearer_token header = None); [|now rewrite Hb].
  unfold bearer_token. destruct Hcase as [(-> & Hs & Hd) | Hs].
  - rewrite (split_segment scheme rest Hs).
    destruct (split " " rest) as [|t ts]; [reflexivity|].
    apply String.eqb_neq in Hd. now rewrite Hd.
  - now rewrite (split_no_space header Hs).
Qed.

(** Only a [ZodError] comes out of the schema. *)
Lemma schema_throws (body : Json.json) (e : exn) :
  createPropertySchema_parse body = Throw e -> exists issues, e = ZodError issues.
Proof.
  unfold createPropertySchema_parse.
  destruct body; try (intros [= <-]; eexists; reflexivity).
  destruct (flat_map snd _); [discriminate|].
  intros [= <-]; eexists; reflexivity.
Qed.

Lemma check_string_spec (k : string) (lo hi : Z) (optional : bool)
      (o : list (string * Json.json)) :
  snd (check_string k lo hi optional o) = [] ->
  (fst (check_string k lo hi optional o) = [] /\ optional = true
   /\ Json.get k o = None)
  \/ (exists s, fst (check_string k lo hi optional o) = [(k, Json.JString s)]
                /\ Json.get k o = Some (Json.JString s)
                /\ lo <= UTF8.js_length s <= hi).
Proof.
  unfold check_string.
  destruct (Json.get k o) as [[| | |s| |]|]; cbn [fst snd]; try discriminate.
  - destruct ((lo <=? UTF8.js_length s) && (UTF8.js_length s <=? hi)) eqn:E;
      cbn [fst snd]; [|discriminate].
    intros _. right. exists s. repeat split; try reflexivity;
      apply andb_true_iff in E; destruct E as [E1 E2];
      [apply Z.leb_le in E1|apply Z.leb_le in E2]; assumption.
  - destruct optional; cbn [fst snd]; [|discriminate]. intros _. now left.
Qed.

(** X16. app/api/properties/route.ts: what the schema lets through is an object
    of strings taken from the body, each a member of the schema within its
    bounds, with every required member present; nothing else of the body
    is kept. *)
Theorem schema_output (body validated : Json.json) :
  createPropertySchema_parse body = Ok validated ->
  exists o members,
    body = Json.JObject o /\ validated = Json.JObject members
    /\ (forall k x, In (k, x) members ->
          exists s lo hi,
            x = Json.JString s /\ Json.get k o = Some (Json.JString s)
            /\ field_bounds k = Some (lo, hi) /\ lo <= UTF8.js_length s <= hi)
    /\ (forall k, In k required_fields ->
          exists s, In (k, Json.JString s) members).
Proof.
  unfold createPropertySchema_parse.
  destruct body as [| | | | |o]; try discriminate.
  destruct (flat_map snd _) eqn:Ei; [|discriminate].
  intros [= <-]. exists o. eexists. split; [reflexivity|]. split; [reflexivity|].
  cbn [flat_map] in Ei |- *.
  repeat (apply app_eq_nil in Ei; let Hh := fresh "Hc" in destruct Ei as [Hh Ei]).
  apply check_string_spec in Hc, Hc0, Hc1, Hc2, Hc3, Hc4, Hc5.
  destruct Hc as [(_ & [=] & _)|(s0 & -> & G0 & B0)].
  destruct Hc0 as [(_ & [=] & _)|(s1 & -> & G1 & B1)].
  destruct Hc1 as [(_ & [=] & _)|(s2 & -> & G2 & B2)].
  destruct Hc2 as [(_ & [=] & _)|(s3 & -> & G3 & B3)].
  destruct Hc3 as [(_ & [=] & _)|(s4 & -> & G4 & B4)].
  destruct Hc4 as [(_ & [=] & _)|(s5 & -> & G5 & B5)].
  destruct Hc5 as [(-> & _ & _)|(s6 & -> & G6 & B6)]; cbn [app]; split.
  - intros k x Hin.
    repeat (destruct Hin as [[= <- <-]|Hin];
            [eexists; eexists; eexists; repeat split;
             try eassumption; try reflexivity; lia|]).
    destruct Hin.
  - intros k Hin.
    repeat (destruct Hin as [<-|Hin]; [eexists; cbn; eauto 8|]).
    destruct Hin.
  - intros k x Hin.
    repeat (destruct Hin as [[= <- <-]|Hin];
            [eexists; eexists; eexists; repeat split;
             try eassumption; try reflexivity; lia|]).
    destruct Hin.
  - intros k Hin.
    repeat (destruct Hin as [<-|Hin]; [eexists; cbn; eauto 8|]).
    destruct Hin.
Qed.

(** X17. app/api/properties/route.ts: [handler] never throws and answers with
    status 201, 400 or 500. *)
Theorem handler_always_responds
        (request : NextRequest) (user : AuthenticatedUser) (w : World) :
  exists response w',
    handler request user w = (Ok response, w')
    /\ (status response = 201 \/ status response = 400
        \/ status response = 500).
Proof.
  unfold handler, try_catchE, bindE, lift, encryptField_in_world, ret.
  destruct (NextRequest_json request) as [body|e].
  2:{ destruct e; eexists; eexists; split; try reflexivity; cbn; auto. }
  destruct (createPropertySchema_parse body) as [v|e].
  2:{ destruct e; eexists; eexists; split; try reflexivity; cbn; auto. }
  destruct (encryptField _ _ v (uid user)) as [blob|e].
  2:{ destruct e; eexists; eexists; split; try reflexivity; cbn; auto. }
  match goal with |- context [getDatabase ?x] =>
    destruct (getDatabase x) as [[client|e] w1] end.
  2:{ destruct e; eexists; eexists; split; try reflexivity; cbn; auto. }
  destruct (Client_execute client _ _ w1) as [[rs|e] w2].
  2:{ destruct e; eexists; eexists; split; try reflexivity; cbn; auto. }
  unfold created.
  destruct (lastInsertRowid rs); eexists; eexists; split; try reflexivity;
    cbn; auto.
Qed.

(** X18. app/api/properties/route.ts: a body whose text, decoded and without
    a byte order mark, is no JSON document is answered with the 500 of the
    route, and one the schema refuses with the 400 that lists the issues
    of zod; in both cases nothing is encrypted and nothing is stored: the
    world is as before. *)
Theorem handler_rejects_bad_body
        (request : NextRequest) (user : AuthenticatedUser) (w : World) :
  (Json.parse (UTF8.decode (drop_bom (request_body request))) = None ->
   handler request user w = (Ok creation_failed, w))
  /\ (forall body issues,
        Json.parse (UTF8.decode (drop_bom (request_body request))) = Some body ->
        createPropertySchema_parse body = Throw (ZodError issues) ->
        handler request user w = (Ok (validation_failed issues), w)).
Proof.
  split.
  - intros E. unfold handler, try_catchE, bindE, lift, NextRequest_json.
    rewrite E. reflexivity.
  - intros body issues E1 E2.
    unfold handler, try_catchE, bindE, lift, NextRequest_json.
    rewrite E1, E2. reflexivity.
Qed.

(** X19. app/api/properties/route.ts: encryption comes before the database:
    with the master secret unset the answer is the 500 of the route, no
    client is made and nothing is stored. *)
Theorem handler_without_secret_stores_nothing
        (request : NextRequest) (user : AuthenticatedUser) (w : World)
        (body validated : Json.json) :
  NextRequest_json request = Ok body ->
  createPropertySchema_parse body = Ok validated ->
  truthy (process_env w "ENCRYPTION_MASTER_SECRET"%string) = None ->
  handler request user w = (Ok creation_failed, w).
Proof.
  intros E1 E2 E3.
  unfold handler, try_catchE, bindE, lift, encryptField_in_world.
  rewrite E1, E2.
  unfold encryptField, encrypt, deriveUserKey, getMasterSecret. rewrite E3.
  reflexivity.
Qed.

Lemma getDatabase_frame (w w' : World) (r : result Client) :
  getDatabase w = (r, w') ->
  database w' = database w /\ random w' = random w
  /\ process_env w' = process_env w.
Proof.
  unfold getDatabase. destruct (db w).
  - intros [= <- <-]; auto.
  - destruct (truthy _); [|intros [= <- <-]; auto].
    destruct (truthy _); [|intros [= <- <-]; auto].
    destruct (createClient _ _); intros [= <- <-]; auto.
Qed.

(** X20. app/api/properties/route.ts: when body, schema, master secret and
    database client are in order, the one statement run is the INSERT whose
    arguments are the verified uid and a blob that [decryptField] turns
    back, under that uid, into the validated data; sixteen random bytes
    were drawn. *)
Theorem handler_stores_encrypted
        (from_object : Json.json -> result (list byte))
        (request : NextRequest) (user : AuthenticatedUser) (w w1 : World)
        (body validated : Json.json) (client : Client) :
  NextRequest_json request = Ok body ->
  createPropertySchema_parse body = Ok validated ->
  master_secret_set (process_env w) ->
  serializable validated ->
  getDatabase (draw IV_LENGTH w) = (Ok client, w1) ->
  exists blob response w',
    handler request user w = (Ok response, w')
    /\ decryptField (process_env w) from_object blob (uid user) = Ok validated
    /\ database w'
       = snd (execute client insert_property [uid user; blob] (database w))
    /\ random w' = (fun i => random w (i + IV_LENGTH)%nat).
Proof.
  intros E1 E2 Hset Hser Hdb.
  destruct (stored_field_roundtrip (process_env w) from_object (random w)
              validated (uid user) Hset Hser) as (blob & Henc & Hdec).
  destruct (deriveUserKey_set (process_env w) (uid user) Hset) as (k & Hk & _).
  destruct (getDatabase_frame _ _ _ Hdb) as (Hd1 & Hr1 & _).
  exists blob.
  unfold handler, try_catchE, bindE, lift, encryptField_in_world.
  rewrite E1, E2, Henc, Hk, Hdb.
  unfold Client_execute. fold insert_property.
  rewrite Hd1. cbn [draw database].
  destruct (execute client insert_property [uid user; blob] (database w))
    as [[rs|] d] eqn:Ee.
  - unfold created. destruct (lastInsertRowid rs);
      eexists; eexists; (split; [reflexivity|]); cbn [database random snd];
      rewrite Hr1; auto.
  - eexists; eexists; (split; [reflexivity|]); cbn [database random snd];
      rewrite Hr1; auto.
Qed.

End ServerProperties.

(** ** The further properties in the concrete setting *)

Lemma scenario_encrypt :
  encrypt Scenario.env Scenario.random Scenario.data Scenario.alice
  = Ok scenario_record.
Proof. vm_compute. reflexivity. Qed.

Lemma decryptField_encryptField_witness :
  exists blob,
    encryptField Scenario.env Scenario.random Scenario.data Scenario.alice = Ok blob
    /\ decryptField Scenario.env scenario_from_object blob Scenario.alice
       = Ok Scenario.data.
Proof.
  exact (decryptField_encryptField Scenario.env scenario_from_object
           Scenario.random Scenario.data Scenario.alice
           scenario_secret_set scenario_data_serializable).
Defined.

Lemma encrypt_record_shape_witness :
  Base64.decode (iv scenario_record) = randomBytes Scenario.random IV_LENGTH
  /\ length (Base64.decode (iv scenario_record)) = IV_LENGTH
  /\ length (Base64.decode (authTag scenario_record)) = AUTH_TAG_LENGTH
  /\ length (Base64.decode (ciphertext scenario_record))
     = length (UTF8.encode (Json.stringify Scenario.data)).
Proof.
  exact (encrypt_record_shape Scenario.env Scenario.random Scenario.data
           Scenario.alice (Json.stringify Scenario.data) scenario_record
           scenario_encrypt eq_refl).
Defined.

Lemma decrypt_rejects_other_tag_witness :
  decrypt (T := Json.json) Scenario.env
          (with_tag scenario_record (repeat x00 16)) Scenario.alice
  = Throw decryption_error.
Proof.
  refine (decrypt_rejects_other_tag Scenario.env Scenario.random Scenario.data
            Scenario.alice scenario_record (repeat x00 16)
            scenario_encrypt eq_refl _).
  vm_compute. discriminate.
Defined.

Lemma decrypt_accepts_truncated_tag_witness :
  decrypt Scenario.env
          (with_tag scenario_record
                    (firstn 4 (Base64.decode (authTag scenario_record))))
          Scenario.alice
  = Ok Scenario.data.
Proof.
  exact (decrypt_accepts_truncated_tag Scenario.env Scenario.random
           Scenario.data Scenario.alice scenario_record 4
           scenario_encrypt scenario_data_serializable eq_refl).
Defined.

Lemma trailing_nul_same_key_witness :
  deriveUserKey Scenario.env (Scenario.alice ++ nul)
  = deriveUserKey Scenario.env Scenario.alice
  /\ decrypt (T := Json.json) Scenario.env scenario_record (Scenario.alice ++ nul)
     = decrypt Scenario.env scenario_record Scenario.alice.
Proof.
  refine (trailing_nul_same_key Scenario.env Scenario.alice scenario_record _).
  apply Nat.ltb_lt. reflexivity.
Defined.

Lemma derived_key_length_witness : length Scenario.alice_key = KEY_LENGTH.
Proof.
  exact (derived_key_length Scenario.env Scenario.alice Scenario.alice_key
           scenario_alice_key).
Defined.

Lemma decryptField_errors_witness :
  SyntaxError "Unexpected token in JSON" = decryption_error
  \/ exists message, SyntaxError "Unexpected token in JSON" = SyntaxError message.
Proof.
  refine (decryptField_errors (T := Json.json) Scenario.env scenario_from_object
            "bm90IGpzb24=" Scenario.alice _ _).
  reflexivity.
Defined.



Lemma verifyAuth_touches_only_firebase_witness :
  process_env scenario_world_initialised = process_env Scenario.world
  /\ db scenario_world_initialised = db Scenario.world
  /\ database scenario_world_initialised = database Scenario.world
  /\ random scenario_world_initialised = random Scenario.world.
Proof.
  exact (verifyAuth_touches_only_firebase
           (Scenario.request "Bearer valid-token") Scenario.world
           scenario_world_initialised _ scenario_valid_token_verified).
Defined.

Lemma verifyAuth_scheme_is_exact_witness :
  verifyAuth (Scenario.request "bearer valid-token") Scenario.world
  = (Throw (AuthenticationError "Invalid authorization header format" 401),
     Scenario.world).
Proof.
  refine (verifyAuth_scheme_is_exact (Scenario.request "bearer valid-token")
            "bearer valid-token" "bearer" "valid-token" Scenario.world
            eq_refl _ (or_introl (conj eq_refl (conj eq_refl _))));
    discriminate.
Defined.

Lemma withAuth_throws_only_for_refused_status_witness :
  exists user w1 message statusCode,
    verifyAuth (Scenario.request "Bearer valid-token") Scenario.world
    = (Ok user, w1)
    /\ scenario_refusing_handler 204 (Scenario.request "Bearer valid-token")
                                 user w1
       = (Throw (AuthenticationError message statusCode),
          scenario_world_initialised)
    /\ new_Response
         (Json.stringify (Json.JObject [("error"%string, Json.JString message)]))
         statusCode json_headers
       = Throw (TypeError "Invalid response status code")
    /\ (statusCode mod 65536 < 200 \/ 599 < statusCode mod 65536
        \/ In (statusCode mod 65536) [204; 205; 304]).
Proof.
  refine (withAuth_throws_only_for_refused_status
            (scenario_refusing_handler 204)
            (Scenario.request "Bearer valid-token") Scenario.world
            scenario_world_initialised
            (TypeError "Invalid response status code") _).
  reflexivity.
Defined.

Lemma scenario_schema :
  @createPropertySchema_parse Scenario.platform scenario_property
  = Ok scenario_validated.
Proof. reflexivity. Qed.

Lemma schema_output_witness :
  exists o members,
    scenario_property = Json.JObject o /\ scenario_validated = Json.JObject members
    /\ (forall k x, In (k, x) members ->
          exists s lo hi,
            x = Json.JString s /\ Json.get k o = Some (Json.JString s)
            /\ field_bounds k = Some (lo, hi) /\ lo <= UTF8.js_length s <= hi)
    /\ (forall k, In k required_fields ->
          exists s, In (k, Json.JString s) members).
Proof.
  exact (@schema_output Scenario.platform scenario_property scenario_validated
           scenario_schema).
Defined.

Lemma scenario_body :
  @NextRequest_json (scenario_post "Bearer valid-token" scenario_property)
  = Ok scenario_property.
Proof. vm_compute. reflexivity. Qed.

Lemma handler_rejects_bad_body_witness :
  handler (Scenario.request "Bearer valid-token") scenario_user Scenario.world
  = (Ok creation_failed, Scenario.world)
  /\ handler (scenario_post "Bearer valid-token" (Json.JObject []))
             scenario_user Scenario.world
     = (Ok (validation_failed
              (map (fun k => @zod_issue Scenario.platform expected_string [k] None)
                   required_fields)),
        Scenario.world).
Proof.
  split.
  - apply (proj1 (handler_rejects_bad_body
                    (Scenario.request "Bearer valid-token") scenario_user
                    Scenario.world)).
    vm_compute. reflexivity.
  - apply (proj2 (handler_rejects_bad_body
                    (scenario_post "Bearer valid-token" (Json.JObject []))
                    scenario_user Scenario.world) (Json.JObject []));
      vm_compute; reflexivity.
Defined.

Lemma handler_without_secret_stores_nothing_witness :
  handler (scenario_post "Bearer valid-token" scenario_property) scenario_user
          scenario_world_without_secret
  = (Ok creation_failed, scenario_world_without_secret).
Proof.
  exact (handler_without_secret_stores_nothing
           (scenario_post "Bearer valid-token" scenario_property) scenario_user
           scenario_world_without_secret scenario_property scenario_validated
           scenario_body scenario_schema eq_refl).
Defined.

Lemma scenario_validated_serializable : serializable scenario_validated.
Proof.
  exists (Json.stringify scenario_validated).
  repeat split; vm_compute; reflexivity.
Qed.

Lemma handler_stores_encrypted_witness :
  exists blob response w',
    handler (scenario_post "Bearer valid-token" scenario_property) scenario_user
            Scenario.world = (Ok response, w')
    /\ decryptField Scenario.env scenario_from_object blob (uid scenario_user)
       = Ok scenario_validated
    /\ database w'
       = snd (@execute Scenario.platform "libsql://tenants.example"%string
                       insert_property
                      [uid scenario_user; blob] (database Scenario.world))
    /\ random w' = (fun i => random Scenario.world (i + IV_LENGTH)%nat).
Proof.
  refine (handler_stores_encrypted scenario_from_object
            (scenario_post "Bearer valid-token" scenario_property) scenario_user
            Scenario.world _ scenario_property scenario_validated
            "libsql://tenants.example"%string
            scenario_body scenario_schema scenario_secret_set
            scenario_validated_serializable _).
  reflexivity.
Defined.
